(** * Wumbo: transaction synchronisation, credential vault and webhook checks

    A shallow embedding of the Python back end's core:
    - [app/core/encryption.py]            (module [Vault])
    - [app/core/webhook_verification.py]  (module [Webhook])
    - [app/integrations/plaid_client.py],
      [app/services/plaid_service.py],
      [app/tasks/plaid_tasks.py]          (module [Sync])

    Python exceptions are values of [exn]; a call that may raise returns a
    [result].  Third-party libraries (cryptography's Fernet, python-jose,
    hashlib/hmac, the aggregator's HTTP API, Celery's queue,
    datetime.strptime) are not part of the repository: each is an interface
    (a type class) whose operations the embedded code calls exactly where
    the source does, with the arguments the source passes. *)

From stdpp Require Import base option list strings gmap pretty.
From Stdlib Require Import ZArith Lia Ascii.

Local Open Scope string_scope.
Local Open Scope list_scope.
Local Open Scope Z_scope.

(** ** Exceptions and results *)

(** The exception classes the modelled code raises or catches.  Each carries
    the text [str(e)] would give. *)
Inductive exn : Type :=
| ValueError (msg : string)
| TypeError (msg : string)
| InvalidToken
| JWTError (msg : string)
| ApiException (msg : string)
| WebhookVerificationError (msg : string)
| HTTPException (status_code : Z) (detail : string)
| OtherException (msg : string).

Definition str_exn (e : exn) : string :=
  match e with
  | ValueError m | TypeError m | JWTError m | ApiException m
  | WebhookVerificationError m | OtherException m => m
  | InvalidToken => ""
  | HTTPException c d => pretty c +:+ ": " +:+ d
  end.

Inductive result (A : Type) : Type :=
| Ok (a : A)
| Raise (e : exn).
Arguments Ok {A} a.
Arguments Raise {A} e.

Definition is_ok {A} (r : result A) : bool :=
  match r with Ok _ => true | Raise _ => false end.

(** Python truthiness of a [str]: [not s] holds exactly for the empty string. *)
Definition str_truthy (s : string) : bool :=
  match s with EmptyString => false | _ => true end.

(** ** The credential vault: app/core/encryption.py *)

(** cryptography.fernet and base64, as the vault uses them.  [Fernet k] is
    [None] when the constructor raises; [fernet_encrypt] takes the fresh
    randomness (IV and timestamp) of the call; [fernet_decrypt] raises
    [InvalidToken] or any other exception. *)
Class FernetLib : Type := {
  fernet : Type;
  Fernet : string -> option fernet;
  urlsafe_b64encode : string -> string;
  fernet_encrypt : fernet -> string -> string -> string;
  fernet_decrypt : fernet -> string -> result string;
}.

Module Vault.
Section Vault.
Context {L : FernetLib}.

(** The class attribute [EncryptionService._fernet] (process-wide cache)
    together with [settings.ENCRYPTION_KEY]. *)
Record state : Type := mkState {
  ENCRYPTION_KEY : string;
  _fernet : option fernet;
}.

Definition invalid_key_msg : string :=
  "Invalid encryption key. Must be 32 url-safe base64-encoded bytes. " +:+
  "Generate one with: python -c 'from cryptography.fernet import Fernet; print(Fernet.generate_key().decode())'".

Definition invalid_token_msg : string :=
  "Failed to decrypt data. Token may be corrupted or encryption key changed.".

(** The key [_get_fernet] hands to the Fernet constructor: a key of 32
    characters is taken as raw and encoded, any other as encoded already
    (keys are ASCII, so characters are bytes). *)
Definition prepared_key (encryption_key : string) : string :=
  if decide (String.length encryption_key = 32%nat)
  then urlsafe_b64encode encryption_key
  else encryption_key.

(** [EncryptionService._get_fernet]: returns the cached instance, or builds
    it from the configured key on the first call and caches it. *)
Definition _get_fernet (st : state) : result fernet * state :=
  match _fernet st with
  | Some f => (Ok f, st)
  | None =>
      let encryption_key := ENCRYPTION_KEY st in
      let key := prepared_key encryption_key in
      match Fernet key with
      | Some f => (Ok f, mkState encryption_key (Some f))
      | None => (Raise (ValueError invalid_key_msg), st)
      end
  end.

(** [EncryptionService.encrypt]; [iv] is the randomness of this call. *)
Definition encrypt (iv plaintext : string) (st : state) : result string * state :=
  if negb (str_truthy plaintext) then (Ok plaintext, st)
  else
    match _get_fernet st with
    | (Ok f, st') => (Ok (fernet_encrypt f iv plaintext), st')
    | (Raise e, st') => (Raise e, st')
    end.

(** [EncryptionService.decrypt]. *)
Definition decrypt (ciphertext : string) (st : state) : result string * state :=
  if negb (str_truthy ciphertext) then (Ok ciphertext, st)
  else
    match _get_fernet st with
    | (Ok f, st') =>
        match fernet_decrypt f ciphertext with
        | Ok p => (Ok p, st')
        | Raise InvalidToken => (Raise (ValueError invalid_token_msg), st')
        | Raise e => (Raise e, st')
        end
    | (Raise e, st') => (Raise e, st')
    end.

(** Process start (main.py, worker.py, app/core/config.py): the settings
    object is built from the environment, where [ENCRYPTION_KEY: str] is a
    required field; logging is set up and the application object created.
    Nothing there touches [EncryptionService]. *)
Definition startup (env_ENCRYPTION_KEY : option string) : result state :=
  match env_ENCRYPTION_KEY with
  | None => Raise (OtherException "ValidationError: ENCRYPTION_KEY Field required")
  | Some k => Ok (mkState k None)
  end.

End Vault.
End Vault.

(** ** Webhook verification: app/core/webhook_verification.py *)

(** JSON values, as the claims of a decoded token hold them (numbers are
    integers: the issued-at claim is compared with [int(time.time())]). *)
#[warnings="-register-all"]
Inductive json : Type :=
| JNull
| JBool (b : bool)
| JInt (z : Z)
| JStr (s : string)
| JArray (items : list json)
| JObject (fields : list (string * json)).

(** hashlib and hmac: hexadecimal digests of a byte string. *)
Class HashLib : Type := {
  sha256_hexdigest : string -> string;
  hmac_sha256_hexdigest : string -> string -> string;
  hmac_sha512_hexdigest : string -> string -> string;
}.

(** python-jose: [jwt.decode(token, key, algorithms=None, options=None, ...)]
    gives the claims of the token or raises.  [key] is [None] for a call
    that passes no key. *)
Class JoseLib : Type := {
  jwt_decode : forall (token : string) (key : option string),
    result (gmap string json);
}.

(** [key] has no default in the signature of [decode]: Python answers a
    call that leaves it out with this [TypeError], before the body of
    [decode] runs and so whatever the token is. *)
Definition missing_key_msg : string :=
  "decode() missing 1 required positional argument: 'key'".

Definition key_is_required `{JoseLib} : Prop :=
  forall token, jwt_decode token None = Raise (TypeError missing_key_msg).

Module Webhook.
Section Webhook.
Context {H : HashLib} {J : JoseLib}.

(** Python truthiness of a JSON value ([if issued_at:]). *)
Definition truthy (v : json) : bool :=
  match v with
  | JNull => false
  | JBool b => b
  | JInt z => negb (z =? 0)
  | JStr s => str_truthy s
  | JArray l => match l with [] => false | _ => true end
  | JObject l => match l with [] => false | _ => true end
  end.

(** [current_time - issued_at] for an [int] on the left: defined on numbers
    ([bool] is a subclass of [int]), a [TypeError] otherwise. *)
Definition int_sub (a : Z) (v : json) : result Z :=
  match v with
  | JInt z => Ok (a - z)
  | JBool b => Ok (a - (if b then 1 else 0))
  | _ => Raise (TypeError "unsupported operand type(s) for -")
  end.

(** [body_hash != expected_hash] with a [str] on the left. *)
Definition str_ne (s : string) (v : option json) : bool :=
  match v with
  | Some (JStr s') => negb (bool_decide (s = s'))
  | _ => true
  end.

(** [PlaidWebhookVerifier.MAX_WEBHOOK_AGE]: seconds. *)
Definition MAX_WEBHOOK_AGE : Z := 300.

Definition HTTP_401_UNAUTHORIZED : Z := 401.
Definition HTTP_500_INTERNAL_SERVER_ERROR : Z := 500.

Definition too_old_msg (age : Z) : string :=
  "Webhook too old: " +:+ pretty age +:+ " seconds (max " +:+
  pretty MAX_WEBHOOK_AGE +:+ ")".

(** The body of the [try] block of [verify_plaid_webhook]; [now] is
    [int(time.time())].  The call of [jwt.decode] passes the token and the
    options, and no key. *)
Definition verify_claims (signature body : string) (now : Z) : result unit :=
  match jwt_decode signature None with
  | Raise e => Raise e
  | Ok unverified =>
      if bool_decide (unverified !! "request_body_sha256" = None)
      then Raise (WebhookVerificationError "Missing request_body_sha256 claim")
      else
        let body_hash := sha256_hexdigest body in
        let expected_hash := unverified !! "request_body_sha256" in
        if str_ne body_hash expected_hash
        then Raise (WebhookVerificationError "Request body hash mismatch")
        else
          match unverified !! "iat" with
          | Some issued_at =>
              if truthy issued_at then
                let current_time := now in
                match int_sub current_time issued_at with
                | Raise e => Raise e
                | Ok age =>
                    if MAX_WEBHOOK_AGE <? age
                    then Raise (WebhookVerificationError (too_old_msg age))
                    else Ok tt
                end
              else Ok tt
          | None => Ok tt
          end
  end.

(** [PlaidWebhookVerifier.verify_plaid_webhook]: the header lookup, the
    [try] block and its three handlers.  [headers] is keyed by the header
    name as the source spells it. *)
Definition verify_plaid_webhook
  (headers : gmap string string) (body : string) (now : Z) : result unit :=
  match headers !! "Plaid-Verification" with
  | None => Raise (HTTPException HTTP_401_UNAUTHORIZED "Missing webhook signature")
  | Some signature =>
      if negb (str_truthy signature)
      then Raise (HTTPException HTTP_401_UNAUTHORIZED "Missing webhook signature")
      else
        match verify_claims signature body now with
        | Ok tt => Ok tt
        | Raise (JWTError m) =>
            Raise (HTTPException HTTP_401_UNAUTHORIZED ("Invalid webhook token: " +:+ m))
        | Raise (WebhookVerificationError m) =>
            Raise (HTTPException HTTP_401_UNAUTHORIZED m)
        | Raise _ =>
            Raise (HTTPException HTTP_500_INTERNAL_SERVER_ERROR "Webhook verification error")
        end
  end.

(** [hmac.compare_digest] on two [str]: both must be ASCII. *)
Definition is_ascii (s : string) : bool :=
  forallb (fun c => (Ascii.N_of_ascii c <? 128)%N) (String.list_ascii_of_string s).

Definition compare_digest (a b : string) : result bool :=
  if is_ascii a && is_ascii b then Ok (bool_decide (a = b))
  else Raise (TypeError "comparing strings with non-ASCII characters is not supported").

(** [GenericWebhookVerifier.verify_hmac_signature]. *)
Definition verify_hmac_signature
  (body signature secret algorithm : string) : result bool :=
  let attempt : result bool :=
    match
      (if bool_decide (algorithm = "sha256") then Ok (hmac_sha256_hexdigest secret body)
       else if bool_decide (algorithm = "sha512") then Ok (hmac_sha512_hexdigest secret body)
       else Raise (ValueError ("Unsupported algorithm: " +:+ algorithm)))
    with
    | Ok expected => compare_digest signature expected
    | Raise e => Raise e
    end in
  match attempt with
  | Ok b => Ok b
  | Raise e => Raise (WebhookVerificationError ("Failed to verify signature: " +:+ str_exn e))
  end.

End Webhook.
End Webhook.

(** ** Transaction synchronisation *)

(** [datetime.strptime(s, "%Y-%m-%d").date()]: [None] when it raises
    [ValueError]. *)
Class DateLib : Type := {
  Date : Type;
  strptime_ymd : string -> option Date;
}.

(** One transaction of a sync page ([txn_data]): the keys the service reads.
    A key read with [txn_data[...]] is a field; a key read with
    [txn_data.get(...)] is an option, [None] when the key is absent or null
    (for [category] and [pending], which are read with a default: when the
    key is absent).  Amounts are in minor units, so that [abs] is exact. *)
Module TxnData.
Record t : Type := mk {
  transaction_id : string;
  amount : Z;
  date : string;
  authorized_date : option string;
  name : string;
  merchant_name : option string;
  category : option (list string);
  category_id : option string;
  payment_channel : option string;
  pending : option bool;
}.
End TxnData.

(** The aggregator's answer to one transactions-sync request, as
    [response.to_dict()] gives it: every key may be absent. *)
Module SyncResponse.
Record t : Type := mk {
  added : option (list TxnData.t);
  modified : option (list TxnData.t);
  removed : option (list string);
  has_more : option bool;
  next_cursor : option string;
}.
End SyncResponse.

(** The aggregator's API: the answer to a request may depend on the
    requests made before ([history], oldest first). *)
Class PlaidApi : Type := {
  transactions_sync :
    forall (history : list (string * option string))
           (access_token : string) (cursor : option string),
      result SyncResponse.t;
}.

(** Celery's [sync_account_transactions.delay(account_id)]: one execution
    of the run is queued, or the call raises (the broker cannot be
    reached); the answer may depend on what the calling task has queued
    before ([queued], oldest first). *)
Class TaskQueue : Type := {
  delay : forall (queued : list string) (account_id : string), result unit;
}.

(** Rows of [bank_accounts] (app/models/bank_account.py).  The column
    [plaid_access_token] holds what the database holds: the ciphertext. *)
Module BankAccount.
Record t : Type := mk {
  id : string;
  household_id : string;
  user_id : string;
  plaid_account_id : string;
  plaid_item_id : string;
  plaid_access_token : string;
  plaid_cursor : option string;
  is_active : bool;
  last_synced_at : option Z;
  sync_error : option string;
}.
End BankAccount.

Module Sync.
Section Sync.
Context {L : FernetLib} {D : DateLib} {P : PlaidApi}.

(** Rows of [transactions] (app/models/transaction.py); the surrogate key
    and the two timestamps, which the storage engine fills in, are left
    out. *)
Record Transaction : Type := mkTransaction {
  account_id : string;
  household_id : string;
  plaid_transaction_id : option string;
  amount : Z;
  date : Date;
  authorized_date : option Date;
  name : string;
  merchant_name : option string;
  category_id : option string;
  plaid_category : option string;
  plaid_category_id : option string;
  payment_channel : option string;
  payment_meta : option string;
  pending : bool;
  is_manual : bool;
  notes : option string;
}.

Record Database : Type := mkDatabase {
  bank_accounts : list BankAccount.t;
  transactions : list Transaction;
}.

(** Modelled from the spec: the session factory (app/db/session.py) is not
    among the sources, so the store is what the spec assumes, simple keyed
    read, write and delete: a query in a session sees the writes the session
    has made so far, and [commit] makes them the committed state.

    What a run can see and change: the committed database, the open
    session's view of it, the vault's process-wide state, and the requests
    made to the aggregator so far. *)
Record World : Type := mkWorld {
  persisted : Database;
  session : Database;
  vault : Vault.state;
  plaid_calls : list (string * option string);
}.

(** *** A state and exception monad over [World] *)

Definition M (A : Type) : Type := World -> result A * World.

Definition ret {A} (a : A) : M A := fun w => (Ok a, w).
Definition raise {A} (e : exn) : M A := fun w => (Raise e, w).
Definition bind {A B} (m : M A) (k : A -> M B) : M B :=
  fun w => match m w with
           | (Ok a, w') => k a w'
           | (Raise e, w') => (Raise e, w')
           end.

Notation "'do' x <- m ; k" := (bind m (fun x => k))
  (at level 10, x name, m at level 100, k at level 200).
Notation "m ;;; k" := (bind m (fun _ => k))
  (at level 100, k at level 200, right associativity).

Definition get_session : M Database := fun w => (Ok (session w), w).
Definition put_session (db : Database) : M unit :=
  fun w => (Ok tt, mkWorld (persisted w) db (vault w) (plaid_calls w)).
Definition set_transactions (l : list Transaction) : M unit :=
  do db <- get_session; put_session (mkDatabase (bank_accounts db) l).
Definition set_bank_accounts (l : list BankAccount.t) : M unit :=
  do db <- get_session; put_session (mkDatabase l (transactions db)).

(** [db.commit()] and [db.rollback()]. *)
Definition commit : M unit :=
  fun w => (Ok tt, mkWorld (session w) (session w) (vault w) (plaid_calls w)).
Definition rollback (w : World) : World :=
  mkWorld (persisted w) (persisted w) (vault w) (plaid_calls w).

(** [for x in l: body(x); count += 1], giving the final count. *)
Fixpoint for_count {A} (body : A -> M unit) (l : list A) (count : Z) : M Z :=
  match l with
  | [] => ret count
  | x :: l' => body x ;;; for_count body l' (count + 1)
  end.

(** *** app/integrations/plaid_client.py *)

Record SyncResult : Type := mkSyncResult {
  added : list TxnData.t;
  modified : list TxnData.t;
  removed : list string;
  has_more : bool;
  next_cursor : option string;
}.

(** [TransactionsSyncRequest(access_token=access_token, cursor=cursor)]:
    the aggregator's request model checks the types of its arguments when
    it is built.  [cursor] is a [str] that may be left out but may not be
    [None]: a [None], which is what a NULL [plaid_cursor] column gives,
    raises [ApiTypeError], a [TypeError], before any request is made. *)
Definition TransactionsSyncRequest (access_token : string) (cursor : option string)
  : result (string * string) :=
  match cursor with
  | Some c => Ok (access_token, c)
  | None =>
      Raise (TypeError
               ("Invalid type for variable 'cursor'. Required value type is str " +:+
                "and passed type was NoneType at ['cursor']"))
  end.

(** [PlaidClient.sync_transactions]: the request is built, then made, one
    request; an [ApiException] is logged and raised again, any other
    exception leaves the method as it is. *)
Definition sync_transactions (access_token : string) (cursor : option string)
  : M SyncResult :=
  fun w =>
    match TransactionsSyncRequest access_token cursor with
    | Raise e => (Raise e, w)
    | Ok _ =>
        let w' := mkWorld (persisted w) (session w) (vault w)
                    (plaid_calls w ++ [(access_token, cursor)]) in
        match transactions_sync (plaid_calls w) access_token cursor with
        | Raise e => (Raise e, w')
        | Ok result =>
            (Ok (mkSyncResult
                   (default [] (SyncResponse.added result))
                   (default [] (SyncResponse.modified result))
                   (default [] (SyncResponse.removed result))
                   (default false (SyncResponse.has_more result))
                   (SyncResponse.next_cursor result)), w')
        end
    end.

(** *** app/services/plaid_service.py *)

(** [db.query(Transaction).filter(Transaction.plaid_transaction_id == k).first()]:
    the first matching row and its position, which stands for the identity
    of the object the query returns. *)
Definition has_tid (k : string) (t : Transaction) : Prop :=
  plaid_transaction_id t = Some k.

#[global] Instance has_tid_dec (k : string) (t : Transaction) : Decision (has_tid k t).
Proof. unfold has_tid. apply _. Defined.
#[global] Typeclasses Opaque has_tid.

Definition query_transaction (k : string) : M (option (nat * Transaction)) :=
  do db <- get_session; ret (list_find (has_tid k) (transactions db)).

(** Assignments to attributes of the object at position [i]. *)
Definition setattrs (i : nat) (f : Transaction -> Transaction) : M unit :=
  do db <- get_session; set_transactions (alter f i (transactions db)).

Definition strptime (s : string) : M Date :=
  match strptime_ymd s with
  | Some d => ret d
  | None =>
      raise (ValueError ("time data '" +:+ s +:+
                         "' does not match format '%Y-%m-%d'"))
  end.

Definition set_amount (a : Z) (t : Transaction) : Transaction :=
  mkTransaction (account_id t) (household_id t) (plaid_transaction_id t)
    a (date t) (authorized_date t) (name t) (merchant_name t) (category_id t)
    (plaid_category t) (plaid_category_id t) (payment_channel t)
    (payment_meta t) (pending t) (is_manual t) (notes t).

(** The assignments of [_update_transaction] after the amount. *)
Definition set_details (d : Date) (txn_data : TxnData.t) (t : Transaction)
  : Transaction :=
  mkTransaction (account_id t) (household_id t) (plaid_transaction_id t)
    (amount t) d (authorized_date t)
    (TxnData.name txn_data)
    (TxnData.merchant_name txn_data)
    (category_id t)
    (Some (String.concat ", " (default [] (TxnData.category txn_data))))
    (TxnData.category_id txn_data)
    (TxnData.payment_channel txn_data)
    (payment_meta t)
    (default false (TxnData.pending txn_data))
    (is_manual t) (notes t).

(** [PlaidService._update_transaction]. *)
Definition _update_transaction (txn_data : TxnData.t) : M unit :=
  do transaction <- query_transaction (TxnData.transaction_id txn_data);
  match transaction with
  | None => ret tt
  | Some (i, _) =>
      setattrs i (set_amount (Z.abs (TxnData.amount txn_data))) ;;;
      do d <- strptime (TxnData.date txn_data);
      setattrs i (set_details d txn_data)
  end.

(** [PlaidService._save_transaction]. *)
Definition _save_transaction (account : BankAccount.t) (txn_data : TxnData.t)
  : M unit :=
  do existing <- query_transaction (TxnData.transaction_id txn_data);
  match existing with
  | Some _ => _update_transaction txn_data
  | None =>
      do d <- strptime (TxnData.date txn_data);
      do ad <- match TxnData.authorized_date txn_data with
               | Some s => if str_truthy s
                           then do a <- strptime s; ret (Some a)
                           else ret None
               | None => ret None
               end;
      let transaction :=
        mkTransaction
          (BankAccount.id account)
          (BankAccount.household_id account)
          (Some (TxnData.transaction_id txn_data))
          (Z.abs (TxnData.amount txn_data))
          d ad
          (TxnData.name txn_data)
          (TxnData.merchant_name txn_data)
          None
          (Some (String.concat ", " (default [] (TxnData.category txn_data))))
          (TxnData.category_id txn_data)
          (TxnData.payment_channel txn_data)
          None
          (default false (TxnData.pending txn_data))
          false None in
      do db <- get_session;
      set_transactions (transactions db ++ [transaction])
  end.

(** [PlaidService._remove_transaction]. *)
Definition _remove_transaction (plaid_transaction_id : string) : M unit :=
  do transaction <- query_transaction plaid_transaction_id;
  match transaction with
  | Some (i, _) =>
      do db <- get_session; set_transactions (delete i (transactions db))
  | None => ret tt
  end.

(** [db.query(BankAccount).filter(BankAccount.id == account_id).first()].
    Loading the row runs [EncryptedString.process_result_value] on the token
    column, that is [EncryptionService.decrypt]; the loaded object carries
    the plaintext. *)
Definition find_account (account_id : string) (db : Database)
  : option (nat * BankAccount.t) :=
  list_find (fun a => BankAccount.id a = account_id) (bank_accounts db).

Definition query_account (account_id : string)
  : M (option (nat * BankAccount.t * string)) :=
  fun w =>
    match find_account account_id (session w) with
    | None => (Ok None, w)
    | Some (i, a) =>
        match Vault.decrypt (BankAccount.plaid_access_token a) (vault w) with
        | (Ok token, v) =>
            (Ok (Some (i, a, token)),
             mkWorld (persisted w) (session w) v (plaid_calls w))
        | (Raise e, v) =>
            (Raise e, mkWorld (persisted w) (session w) v (plaid_calls w))
        end
    end.

(** The three assignments that end a run. *)
Definition mark_synced (cursor : option string) (now : Z) (a : BankAccount.t)
  : BankAccount.t :=
  BankAccount.mk (BankAccount.id a) (BankAccount.household_id a)
    (BankAccount.user_id a) (BankAccount.plaid_account_id a)
    (BankAccount.plaid_item_id a) (BankAccount.plaid_access_token a)
    cursor (BankAccount.is_active a) (Some now) None.

Record SyncCounts : Type := mkSyncCounts {
  added_count : Z;
  modified_count : Z;
  removed_count : Z;
}.

(** The three loops of [sync_account_transactions] over one page. *)
Definition apply_sync_result (account : BankAccount.t) (sync_result : SyncResult)
  : M SyncCounts :=
  do added_count <- for_count (_save_transaction account) (added sync_result) 0;
  do modified_count <- for_count _update_transaction (modified sync_result) 0;
  do removed_count <- for_count _remove_transaction (removed sync_result) 0;
  ret (mkSyncCounts added_count modified_count removed_count).

(** [PlaidService.sync_account_transactions]; [now] is [datetime.utcnow()]. *)
Definition sync_account_transactions (now : Z) (account_id : string)
  : M SyncCounts :=
  do account <- query_account account_id;
  match account with
  | None => raise (ValueError ("Account " +:+ account_id +:+ " not found"))
  | Some (i, account, access_token) =>
      let cursor := BankAccount.plaid_cursor account in
      do sync_result <- sync_transactions access_token cursor;
      do counts <- apply_sync_result account sync_result;
      do db <- get_session;
      set_bank_accounts
        (alter (mark_synced (next_cursor sync_result) now) i (bank_accounts db)) ;;;
      commit ;;;
      ret counts
  end.

(** *** app/tasks/plaid_tasks.py *)

(** [SessionLocal()] opens a session on the committed database;
    [db.close()] drops whatever the session has not committed. *)
Definition SessionLocal (w : World) : World :=
  mkWorld (persisted w) (persisted w) (vault w) (plaid_calls w).
Definition close (w : World) : World := rollback w.

(** How one execution of a task ends. *)
Inductive task_outcome : Type :=
| Succeeded (account_id : string) (counts : SyncCounts)
| Retrying (exc : exn) (countdown : Z)
| Failed (exc : exn).

(** The decorator's [max_retries=3]. *)
Definition max_retries : nat := 3.

(** Celery's [Task.retry(exc=e, countdown=c)], by its documentation: when
    the retries already made, plus this one, exceed [max_retries], [exc] is
    raised and the task fails; otherwise the task is queued again to run
    [countdown] seconds later. *)
Definition retry (request_retries : nat) (exc : exn) (countdown : Z)
  : task_outcome :=
  if decide (max_retries < request_retries + 1)%nat
  then Failed exc
  else Retrying exc countdown.

(** The task [sync_account_transactions]; [request_retries] is
    [self.request.retries]. *)
Definition task_sync_account_transactions
  (request_retries : nat) (now : Z) (account_id : string) (w : World)
  : task_outcome * World :=
  let w0 := SessionLocal w in
  match sync_account_transactions now account_id w0 with
  | (Ok result, w1) => (Succeeded account_id result, close w1)
  | (Raise e, w1) => (retry request_retries e 300, close (rollback w1))
  end.

(** The worker running the task and each retry it asks for, at most [fuel]
    executions: the outcomes, first execution first. *)
Fixpoint executions (fuel : nat) (request_retries : nat) (now : Z)
  (account_id : string) (w : World) : list task_outcome * World :=
  match fuel with
  | O => ([], w)
  | S fuel' =>
      match task_sync_account_transactions request_retries now account_id w with
      | (Retrying exc countdown, w') =>
          let '(rest, w'') :=
            executions fuel' (S request_retries) (now + countdown) account_id w' in
          (Retrying exc countdown :: rest, w'')
      | (o, w') => ([o], w')
      end
  end.

(** [db.query(BankAccount).filter(...).all()]: the matching rows with their
    positions; each row loaded has its token decrypted. *)
Fixpoint load_rows (rows : list (nat * BankAccount.t))
  : M (list (nat * BankAccount.t)) :=
  match rows with
  | [] => ret []
  | (i, a) :: rows' =>
      fun w =>
        match Vault.decrypt (BankAccount.plaid_access_token a) (vault w) with
        | (Ok _, v) =>
            (do rest <- load_rows rows'; ret ((i, a) :: rest))
              (mkWorld (persisted w) (session w) v (plaid_calls w))
        | (Raise e, v) =>
            (Raise e, mkWorld (persisted w) (session w) v (plaid_calls w))
        end
  end.

Definition query_accounts (keep : BankAccount.t -> bool)
  : M (list (nat * BankAccount.t)) :=
  do db <- get_session;
  load_rows (filter (fun ia => keep ia.2 = true) (imap pair (bank_accounts db))).

Context {TQ : TaskQueue}.

(** What [sync_all_accounts] returns: [{"status": "completed", "queued":
    ..., "failed": ...}] or [{"status": "failed", "error": ...}]. *)
Inductive daily_result : Type :=
| DailyCompleted (queued failed : Z)
| DailyFailed (error : string).

(** The loop of [sync_all_accounts]: a call of [delay] that raises is
    counted and the loop goes on.  [queued] collects the ids queued. *)
Fixpoint queue_each (accounts : list (nat * BankAccount.t))
  (queued : list string) (accounts_synced accounts_failed : Z)
  : list string * Z * Z :=
  match accounts with
  | [] => (queued, accounts_synced, accounts_failed)
  | account :: accounts' =>
      match delay queued (BankAccount.id account.2) with
      | Ok _ =>
          queue_each accounts' (queued ++ [BankAccount.id account.2])
            (accounts_synced + 1) accounts_failed
      | Raise _ =>
          queue_each accounts' queued accounts_synced (accounts_failed + 1)
      end
  end.

(** The task [sync_all_accounts]: the account ids it queues a sync for, and
    what it returns. *)
Definition sync_all_accounts (w : World) : list string * daily_result * World :=
  let w0 := SessionLocal w in
  match query_accounts BankAccount.is_active w0 with
  | (Ok accounts, w1) =>
      match queue_each accounts [] 0 0 with
      | (queued, accounts_synced, accounts_failed) =>
          (queued, DailyCompleted accounts_synced accounts_failed, close w1)
      end
  | (Raise e, w1) => ([], DailyFailed (str_exn e), close w1)
  end.

(** The loop of the transactions branch of [handle_plaid_webhook]: no
    handler of its own, so the first call of [delay] that raises ends
    it. *)
Fixpoint queue_until_failure (accounts : list (nat * BankAccount.t))
  (queued : list string) : list string :=
  match accounts with
  | [] => queued
  | account :: accounts' =>
      match delay queued (BankAccount.id account.2) with
      | Ok _ => queue_until_failure accounts' (queued ++ [BankAccount.id account.2])
      | Raise _ => queued
      end
  end.

Definition mark_item_error (a : BankAccount.t) : BankAccount.t :=
  BankAccount.mk (BankAccount.id a) (BankAccount.household_id a)
    (BankAccount.user_id a) (BankAccount.plaid_account_id a)
    (BankAccount.plaid_item_id a) (BankAccount.plaid_access_token a)
    (BankAccount.plaid_cursor a) false (BankAccount.last_synced_at a)
    (Some "Plaid item error - re-authentication required").

(** The task [handle_plaid_webhook]: the account ids it queues a sync for. *)
Definition handle_plaid_webhook (webhook_type webhook_code item_id : string)
  (w : World) : list string * World :=
  let w0 := SessionLocal w in
  if bool_decide (webhook_type = "TRANSACTIONS") then
    if bool_decide (webhook_code ∈ ["DEFAULT_UPDATE"; "HISTORICAL_UPDATE"; "INITIAL_UPDATE"])
    then
      match query_accounts
              (fun a => bool_decide (BankAccount.plaid_item_id a = item_id)
                        && BankAccount.is_active a) w0 with
      | (Ok accounts, w1) => (queue_until_failure accounts [], close w1)
      | (Raise _, w1) => ([], close w1)
      end
    else ([], close w0)
  else if bool_decide (webhook_type = "ITEM") then
    if bool_decide (webhook_code = "ERROR") then
      match (do accounts <- query_accounts
                              (fun a => bool_decide (BankAccount.plaid_item_id a = item_id));
             do db <- get_session;
             set_bank_accounts
               (foldr (fun ia l => alter mark_item_error ia.1 l)
                      (bank_accounts db) accounts) ;;;
             commit) w0 with
      | (_, w1) => ([], close w1)
      end
    else ([], close w0)
  else ([], close w0).

End Sync.
End Sync.

(** ** The stages of a run and of reconciliation, as functions

    What the monadic code computes, stated on the rows and on the world, and
    the notions the properties below are about. *)
Module SyncSpec.
Section SyncSpec.
Context {L : FernetLib} {D : DateLib} {P : PlaidApi}.
Import Sync.

Definition txns (w : World) : list Transaction := transactions (session w).

(** The world with the session's transaction rows replaced. *)
Definition with_txns (l : list Transaction) (w : World) : World :=
  mkWorld (persisted w) (mkDatabase (bank_accounts (session w)) l)
    (vault w) (plaid_calls w).

(** All assignments of a successful [_update_transaction]. *)
Definition upd (p : TxnData.t) (d : Date) (t : Transaction) : Transaction :=
  set_details d p (set_amount (Z.abs (TxnData.amount p)) t).

(** The value of the [authorized_date] argument of the constructor. *)
Definition parse_authorized (p : TxnData.t) : option (option Date) :=
  match TxnData.authorized_date p with
  | Some s => if str_truthy s then Some <$> strptime_ymd s else Some None
  | None => Some None
  end.

(** The row [_save_transaction] constructs. *)
Definition created (a : BankAccount.t) (p : TxnData.t) (d : Date)
  (ad : option Date) : Transaction :=
  mkTransaction (BankAccount.id a) (BankAccount.household_id a)
    (Some (TxnData.transaction_id p)) (Z.abs (TxnData.amount p)) d ad
    (TxnData.name p) (TxnData.merchant_name p) None
    (Some (String.concat ", " (default [] (TxnData.category p))))
    (TxnData.category_id p) (TxnData.payment_channel p) None
    (default false (TxnData.pending p)) false None.

(** The rows after a call that returns; [None] when the call raises. *)
Definition update_l (p : TxnData.t) (l : list Transaction)
  : option (list Transaction) :=
  match list_find (has_tid (TxnData.transaction_id p)) l with
  | None => Some l
  | Some (i, _) =>
      d ← strptime_ymd (TxnData.date p); Some (alter (upd p d) i l)
  end.

Definition save_l (a : BankAccount.t) (p : TxnData.t) (l : list Transaction)
  : option (list Transaction) :=
  match list_find (has_tid (TxnData.transaction_id p)) l with
  | Some _ => update_l p l
  | None =>
      d ← strptime_ymd (TxnData.date p);
      ad ← parse_authorized p;
      Some (l ++ [created a p d ad])
  end.

Definition remove_l (k : string) (l : list Transaction)
  : option (list Transaction) :=
  match list_find (has_tid k) l with
  | Some (i, _) => Some (delete i l)
  | None => Some l
  end.

Fixpoint steps {A} (f : A -> list Transaction -> option (list Transaction))
  (xs : list A) (l : list Transaction) : option (list Transaction) :=
  match xs with
  | [] => Some l
  | x :: xs' => l' ← f x l; steps f xs' l'
  end.

Definition apply_l (a : BankAccount.t) (r : SyncResult) (l : list Transaction)
  : option (list Transaction) :=
  l1 ← steps (save_l a) (added r) l;
  l2 ← steps update_l (modified r) l1;
  steps remove_l (removed r) l2.

(** A monadic step that, when it returns, has replaced the transaction rows
    by [f] of them and changed nothing else. *)
Definition runs_as {A} (m : M A) (f : list Transaction -> option (list Transaction))
  (v : A) : Prop :=
  forall w r w',
    m w = (r, w') ->
    (exists l, w' = with_txns l w) /\
    match f (txns w) with
    | Some l' => r = Ok v /\ w' = with_txns l' w
    | None => is_ok r = false
    end.

(** The counts a run reports are the lengths of the three lists. *)
Definition counts_of (r : SyncResult) : SyncCounts :=
  mkSyncCounts (0 + Z.of_nat (length (added r)))
    (0 + Z.of_nat (length (modified r)))
    (0 + Z.of_nat (length (removed r))).

Definition after_load (v : Vault.state) (w : World) : World :=
  mkWorld (persisted w) (session w) v (plaid_calls w).

Definition after_call (token : string) (cursor : option string) (w : World)
  : World :=
  mkWorld (persisted w) (session w) (vault w)
    (plaid_calls w ++ [(token, cursor)]).

Definition after_commit (f : BankAccount.t -> BankAccount.t) (i : nat)
  (w : World) : World :=
  let db := mkDatabase (alter f i (bank_accounts (session w)))
              (transactions (session w)) in
  mkWorld db db (vault w) (plaid_calls w).

(** The page [sync_transactions] returns for a response. *)
Definition result_of (resp : SyncResponse.t) : SyncResult :=
  mkSyncResult
    (default [] (SyncResponse.added resp))
    (default [] (SyncResponse.modified resp))
    (default [] (SyncResponse.removed resp))
    (default false (SyncResponse.has_more resp))
    (SyncResponse.next_cursor resp).

(** The row a query for the payload's id finds. *)
Definition stored (p : TxnData.t) (w : World) : option Transaction :=
  snd <$> list_find (has_tid (TxnData.transaction_id p)) (txns w).

(** The external ids in the table, and the unique constraint on the column
    [plaid_transaction_id]. *)
Definition keys (l : list Transaction) : list string :=
  omap plaid_transaction_id l.

Definition unique_ids (l : list Transaction) : Prop := NoDup (keys l).

(** What a returning [_update_transaction] does to a row: to the row with
    the payload's id, all its assignments; to any other row, nothing. *)
Definition updp (p : TxnData.t) (t : Transaction) : Transaction :=
  match strptime_ymd (TxnData.date p) with
  | Some d => upd p d t
  | None => t
  end.

Definition touch (p : TxnData.t) (t : Transaction) : Transaction :=
  if decide (has_tid (TxnData.transaction_id p) t) then updp p t else t.

Definition parses (p : TxnData.t) : Prop :=
  is_Some (strptime_ymd (TxnData.date p)).

(** All of a list of payloads applied to one row, in order. *)
Definition touch_all (ps : list TxnData.t) (t : Transaction) : Transaction :=
  foldl (fun t p => touch p t) t ps.

(** A row is settled for a list of payloads when applying them all to it
    changes nothing. *)
Definition settled (ps : list TxnData.t) (t : Transaction) : Prop :=
  touch_all ps t = t.

(** First application: after the added and modified payloads [ps] have
    been processed, ids are still unique and every row is settled for
    [ps]. *)
Definition inv1 (ps : list TxnData.t) (l : list Transaction) : Prop :=
  unique_ids l /\ Forall (settled ps) l.

(** The rows no removal of [K] deletes. *)
Definition live (K : list string) (t : Transaction) : Prop :=
  Forall (fun k => ~ has_tid k t) K.

#[global] Instance live_dec (K : list string) (t : Transaction) : Decision (live K t).
Proof. unfold live. apply _. Defined.
#[global] Typeclasses Opaque live.

Definition purge (K : list string) (l : list Transaction) : list Transaction :=
  filter (live K) l.

(** Second application, started from the purged rows [s]: the rows are
    those of [s], with the payloads processed so far applied to each,
    followed by rows created anew, all of which a removal will delete. *)
Definition inv2 (K : list string) (ps : list TxnData.t)
  (s x : list Transaction) : Prop :=
  unique_ids x /\
  exists j, x = (touch_all ps <$> s) ++ j /\ Forall (fun t => ~ live K t) j.

(** A payload whose dates [strptime] accepts. *)
Definition dates_parse (p : TxnData.t) : Prop :=
  parses p /\ is_Some (parse_authorized p).

End SyncSpec.
End SyncSpec.

(** ** Stand-ins for the libraries, and sample data

    Small executable implementations of the library interfaces, used to run
    the embedded code on concrete inputs. *)
Module Fixtures.

(** *** base64 and a Fernet stand-in *)

Definition b64_alphabet : list Ascii.ascii :=
  String.list_ascii_of_string
    "ABCDEFGHIJKLMNOPQRSTUVWXYZabcdefghijklmnopqrstuvwxyz0123456789-_".

Definition b64_char (n : N) : Ascii.ascii :=
  nth (N.to_nat n) b64_alphabet "="%char.

Fixpoint b64_encode (l : list N) : list Ascii.ascii :=
  match l with
  | [] => []
  | [a] => [b64_char (a / 4); b64_char ((a mod 4) * 16); "="%char; "="%char]
  | [a; b] =>
      [b64_char (a / 4); b64_char ((a mod 4) * 16 + b / 16);
       b64_char ((b mod 16) * 4); "="%char]
  | a :: b :: c :: rest =>
      b64_char (a / 4) :: b64_char ((a mod 4) * 16 + b / 16)
      :: b64_char ((b mod 16) * 4 + c / 64) :: b64_char (c mod 64)
      :: b64_encode rest
  end%N.

Definition b64_urlsafe (s : string) : string :=
  String.string_of_list_ascii
    (b64_encode (Ascii.N_of_ascii <$> String.list_ascii_of_string s)).

(** A Fernet key is the url-safe base64 text of 32 bytes: 43 characters of
    the alphabet and one padding character. *)
Definition is_fernet_key (k : string) : bool :=
  let l := String.list_ascii_of_string k in
  bool_decide (length l = 44%nat)
  && forallb (fun c => bool_decide (c ∈ b64_alphabet)) (take 43 l)
  && bool_decide (l !! 43%nat = Some "="%char).

Fixpoint strip_prefix (p s : string) : option string :=
  match p, s with
  | EmptyString, _ => Some s
  | String a p', String b s' =>
      if bool_decide (a = b) then strip_prefix p' s' else None
  | String _ _, EmptyString => None
  end.

Fixpoint after_colon (s : string) : option string :=
  match s with
  | EmptyString => None
  | String c s' => if bool_decide (c = ":"%char) then Some s' else after_colon s'
  end.

(** Tokens are bound to the key and carry the randomness of the call; a
    token made under another key, or a damaged one, is an [InvalidToken]. *)
Definition fernet_double : FernetLib := {|
  fernet := string;
  Fernet := fun k => if is_fernet_key k then Some k else None;
  urlsafe_b64encode := b64_urlsafe;
  fernet_encrypt := fun key iv p => "gAAAAA" +:+ key +:+ iv +:+ ":" +:+ p;
  fernet_decrypt := fun key c =>
    match strip_prefix ("gAAAAA" +:+ key) c with
    | Some rest =>
        match after_colon rest with
        | Some p => Ok p
        | None => Raise InvalidToken
        end
    | None => Raise InvalidToken
    end;
|}.

(** *** Digests, tokens, dates *)

Definition checksum (s : string) : string :=
  pretty (foldl (fun acc c => (acc * 31 + Ascii.N_of_ascii c) mod 4294967296)%N
                7%N (String.list_ascii_of_string s)).

Definition hash_double : HashLib := {|
  sha256_hexdigest := checksum;
  hmac_sha256_hexdigest := fun key body => checksum ("256:" +:+ key +:+ ":" +:+ body);
  hmac_sha512_hexdigest := fun key body => checksum ("512:" +:+ key +:+ ":" +:+ body);
|}.

Definition webhook_body : string :=
  "{'webhook_type':'TRANSACTIONS','webhook_code':'DEFAULT_UPDATE','item_id':'item-1'}".

(** The tokens the decoder knows, with their claims. *)
Definition known_tokens : gmap string (gmap string json) :=
  {[ "token.no-iat" := {[ "request_body_sha256" := JStr (checksum webhook_body) ]};
     "token.iat-0" := {[ "request_body_sha256" := JStr (checksum webhook_body);
                         "iat" := JInt 0 ]};
     "token.iat-1000" := {[ "request_body_sha256" := JStr (checksum webhook_body);
                            "iat" := JInt 1000 ]} ]}.

(** A decoder with the signature of python-jose's: a call without key
    raises; with a key, the tokens it knows decode to their claims. *)
Definition jose_double : JoseLib := {|
  jwt_decode := fun token key =>
    match key with
    | None => Raise (TypeError missing_key_msg)
    | Some _ =>
        match known_tokens !! token with
        | Some claims => Ok claims
        | None => Raise (JWTError "Not enough segments")
        end
    end;
|}.

Definition is_digit (c : Ascii.ascii) : bool :=
  (48 <=? Ascii.N_of_ascii c)%N && (Ascii.N_of_ascii c <=? 57)%N.

(** Accepts zero-padded [YYYY-MM-DD]. *)
Definition date_double : DateLib := {|
  Date := string;
  strptime_ymd := fun s =>
    match String.list_ascii_of_string s with
    | [y1; y2; y3; y4; d1; m1; m2; d2; a1; a2] =>
        if forallb is_digit [y1; y2; y3; y4; m1; m2; a1; a2]
           && bool_decide (d1 = "-"%char) && bool_decide (d2 = "-"%char)
        then Some s else None
    | _ => None
    end;
|}.

(** *** A scripted aggregator and sample rows *)

Definition access_token : string := "access-sandbox-1".

Definition txn (id : string) (amount : Z) : TxnData.t :=
  TxnData.mk id amount "2024-01-05" None "Coffee" None None None None None.

(** Pages that carry removals only. *)
Definition page1 : SyncResponse.t :=
  SyncResponse.mk (Some []) (Some []) (Some ["t0"]) (Some true) (Some "c1").
Definition page2 : SyncResponse.t :=
  SyncResponse.mk (Some []) (Some []) (Some []) (Some false) (Some "c2").

(** Two pages follow the cursor [c0]: the first announces more.  A request
    without cursor is never made by the client; the double refuses it. *)
Definition plaid_double : PlaidApi := {|
  transactions_sync := fun _ token cursor =>
    if bool_decide (token = access_token) then
      match cursor with
      | Some c => if bool_decide (c = "c0") then Ok page1
                  else if bool_decide (c = "c1") then Ok page2
                  else Raise (ApiException "INVALID_FIELD")
      | None => Raise (ApiException "INVALID_FIELD")
      end
    else Raise (ApiException "INVALID_ACCESS_TOKEN");
|}.

#[local] Existing Instances fernet_double hash_double jose_double date_double plaid_double.

(** A raw 32-character key, the form [_get_fernet] encodes itself. *)
Definition good_key : string := "0123456789abcdef0123456789abcdef".

Definition stored_token : string :=
  fernet_encrypt (b64_urlsafe good_key) "iv-1" access_token.

(** An account that has synced before: its cursor is [c0]. *)
Definition account (token : string) (active : bool) : BankAccount.t :=
  BankAccount.mk "acct-1" "house-1" "user-1" "plaid-acct-1" "item-1"
    token (Some "c0") active None None.

Definition world_of (key : string) (a : BankAccount.t) : Sync.World :=
  let db := Sync.mkDatabase [a] [] in
  Sync.mkWorld db db (Vault.mkState key None) [].

Definition world_active : Sync.World := world_of good_key (account stored_token true).
Definition world_inactive : Sync.World := world_of good_key (account stored_token false).
Definition world_corrupted : Sync.World :=
  world_of good_key (account "gAAAAAcorrupted" true).

Definition signed_by (token : string) : gmap string string :=
  {[ "Plaid-Verification" := token ]}.

Definition warm_vault : Vault.state :=
  Vault.mkState good_key (Some (b64_urlsafe good_key)).

(** A page that adds two transactions, modifies the first and removes the
    second, applied to a table that holds a third. *)
Definition sample_page : Sync.SyncResult :=
  Sync.mkSyncResult [txn "t1" (-1250); txn "t2" 300] [txn "t1" 990] ["t2"]
    false (Some "c9").

Definition world_with_row : Sync.World :=
  SyncSpec.with_txns
    [SyncSpec.created (account stored_token true) (txn "t0" 42) "2024-01-01" None]
    world_active.

(** The same table with the account inactive, and with the account as it
    is right after linking, its cursor still NULL. *)
Definition world_inactive_with_row : Sync.World :=
  let db :=
    Sync.mkDatabase [account stored_token false]
      [SyncSpec.created (account stored_token false) (txn "t0" 42)
         "2024-01-01" None] in
  Sync.mkWorld db db (Vault.mkState good_key None) [].

Definition world_never_synced : Sync.World :=
  world_of good_key
    (BankAccount.mk "acct-1" "house-1" "user-1" "plaid-acct-1" "item-1"
       stored_token None true None None).

End Fixtures.
(** ** The encrypted column type: app/models/bank_account.py *)
Module Columns.
Section Columns.
Context {L : FernetLib}.

(** [EncryptedString.process_bind_param]: the value on its way into the
    database; [iv] is the randomness of the encryption. *)
Definition process_bind_param (iv : string) (value : option string)
  (st : Vault.state) : result (option string) * Vault.state :=
  match value with
  | Some v =>
      match Vault.encrypt iv v st with
      | (Ok c, st') => (Ok (Some c), st')
      | (Raise e, st') => (Raise e, st')
      end
  | None => (Ok None, st)
  end.

(** [EncryptedString.process_result_value]: the value on its way out. *)
Definition process_result_value (value : option string) (st : Vault.state)
  : result (option string) * Vault.state :=
  match value with
  | Some c =>
      match Vault.decrypt c st with
      | (Ok v, st') => (Ok (Some v), st')
      | (Raise e, st') => (Raise e, st')
      end
  | None => (Ok None, st)
  end.

End Columns.
End Columns.

(** ** Rows entered by hand *)
Module SyncSpecMore.
Section SyncSpecMore.
Context {D : DateLib}.
Import Sync.

(** The rows that carry no external id, in table order. *)
Definition manual_rows (l : list Transaction) : list Transaction :=
  filter (fun t => plaid_transaction_id t = None) l.

(** What the item-error webhook does to an account row. *)
Definition mark_if_item (item_id : string) (a : BankAccount.t) : BankAccount.t :=
  if bool_decide (BankAccount.plaid_item_id a = item_id)
  then mark_item_error a else a.

End SyncSpecMore.
End SyncSpecMore.

(** ** The token migration: scripts/encrypt_existing_tokens.py *)
Module Migration.
Section Migration.
Context {L : FernetLib} {D : DateLib}.
Import Sync.

(** [is_encrypted]: decides from the token's shape, else by trying to
    decrypt it. *)
Definition is_encrypted (token : string) (st : Vault.state)
  : bool * Vault.state :=
  if negb (str_truthy token) then (false, st)
  else if Nat.ltb 150 (String.length token)
          && (String.prefix "gAAAAA" token || String.prefix "gAAAAAB" token)
  then (true, st)
  else
    match Vault.decrypt token st with
    | (Ok _, st') => (true, st')
    | (Raise _, st') => (false, st')
    end.

Record Summary : Type := mkSummary {
  encrypted_count : Z;
  skipped_count : Z;
  error_count : Z;
}.

(** [session.query(BankAccount).all()]: every row, each with the token as
    the column type hands it to the script, that is decrypted. *)
Fixpoint load_tokens (rows : list BankAccount.t) (st : Vault.state)
  : result (list (BankAccount.t * string)) * Vault.state :=
  match rows with
  | [] => (Ok [], st)
  | a :: rows' =>
      match Vault.decrypt (BankAccount.plaid_access_token a) st with
      | (Ok token, st') =>
          match load_tokens rows' st' with
          | (Ok rest, st'') => (Ok ((a, token) :: rest), st'')
          | (Raise e, st'') => (Raise e, st'')
          end
      | (Raise e, st') => (Raise e, st')
      end
  end.

Definition set_token (token : string) (a : BankAccount.t) : BankAccount.t :=
  BankAccount.mk (BankAccount.id a) (BankAccount.household_id a)
    (BankAccount.user_id a) (BankAccount.plaid_account_id a)
    (BankAccount.plaid_item_id a) token
    (BankAccount.plaid_cursor a) (BankAccount.is_active a)
    (BankAccount.last_synced_at a) (BankAccount.sync_error a).

(** [UPDATE bank_accounts SET plaid_access_token = :token WHERE id = :id],
    which writes the column as given. *)
Definition update_token (token id : string) (rows : list BankAccount.t)
  : list BankAccount.t :=
  (fun a => if bool_decide (BankAccount.id a = id) then set_token token a else a)
    <$> rows.

(** The loop over the loaded accounts; [n] is the position of the next
    account and [iv n] the randomness of its encryption; [rows] is the
    table as the script's session sees it. *)
Fixpoint migrate (dry_run : bool) (iv : nat -> string) (n : nat)
  (accounts : list (BankAccount.t * string)) (rows : list BankAccount.t)
  (st : Vault.state) (s : Summary)
  : list BankAccount.t * Vault.state * Summary :=
  match accounts with
  | [] => (rows, st, s)
  | (account, plaintext_token) :: accounts' =>
      match is_encrypted plaintext_token st with
      | (true, st1) =>
          migrate dry_run iv (S n) accounts' rows st1
            (mkSummary (encrypted_count s) (skipped_count s + 1) (error_count s))
      | (false, st1) =>
          if dry_run then
            migrate dry_run iv (S n) accounts' rows st1
              (mkSummary (encrypted_count s + 1) (skipped_count s) (error_count s))
          else
            match Vault.encrypt (iv n) plaintext_token st1 with
            | (Ok encrypted_token, st2) =>
                migrate dry_run iv (S n) accounts'
                  (update_token encrypted_token (BankAccount.id account) rows) st2
                  (mkSummary (encrypted_count s + 1) (skipped_count s) (error_count s))
            | (Raise _, st2) =>
                migrate dry_run iv (S n) accounts' rows st2
                  (mkSummary (encrypted_count s) (skipped_count s) (error_count s + 1))
            end
      end
  end.

(** [encrypt_existing_tokens]: [Ok None] is the early return on an unusable
    key, [Ok (Some s)] the run to the end with its summary, [Raise] an
    exception that leaves the function.  The script opens a session of its
    own on the committed table. *)
Definition encrypt_existing_tokens (dry_run : bool) (iv : nat -> string)
  (w : World) : result (option Summary) * World :=
  match Vault._get_fernet (vault w) with
  | (Raise _, v) => (Ok None, mkWorld (persisted w) (session w) v (plaid_calls w))
  | (Ok _, v) =>
      match load_tokens (bank_accounts (persisted w)) v with
      | (Raise e, v') =>
          (Raise e, mkWorld (persisted w) (session w) v' (plaid_calls w))
      | (Ok accounts, v') =>
          match migrate dry_run iv 0 accounts (bank_accounts (persisted w)) v'
                  (mkSummary 0 0 0) with
          | (rows, v'', s) =>
              if dry_run then
                (Ok (Some s), mkWorld (persisted w) (session w) v'' (plaid_calls w))
              else
                (Ok (Some s),
                 mkWorld (mkDatabase rows (transactions (persisted w)))
                   (session w) v'' (plaid_calls w))
          end
      end
  end.

End Migration.
End Migration.

(** ** Unlinking an account: [PlaidService.remove_account] *)

(** The aggregator's item API. *)
Class PlaidItemApi : Type := {
  item_remove : forall (access_token : string), result unit;
}.

Module Unlink.
Section Unlink.
Context {L : FernetLib} {D : DateLib} {I : PlaidItemApi}.
Import Sync.

(** [PlaidClient.remove_item]: an [ApiException] is logged and raised
    again.  The request is no sync request: the log of those stays as it
    is. *)
Definition remove_item (access_token : string) : M bool :=
  fun w =>
    match item_remove access_token with
    | Ok _ => (Ok true, w)
    | Raise e => (Raise e, w)
    end.

(** [db.delete(account)]: the row goes, and with it (the relationship's
    [cascade="all, delete-orphan"]) the transactions that reference it. *)
Definition delete_account (i : nat) (account : BankAccount.t) (db : Database)
  : Database :=
  mkDatabase (delete i (bank_accounts db))
    (filter (fun t => account_id t <> BankAccount.id account) (transactions db)).

(** [PlaidService.remove_account]. *)
Definition remove_account (account_id : string) : M bool :=
  bind (query_account account_id) (fun account =>
  match account with
  | None => raise (ValueError ("Account " +:+ account_id +:+ " not found"))
  | Some (i, account, access_token) =>
      bind (remove_item access_token) (fun _ =>
      bind get_session (fun db =>
      bind (put_session (delete_account i account db)) (fun _ =>
      bind commit (fun _ =>
      ret true))))
  end).

End Unlink.
End Unlink.

(** ** The manual sync endpoint: app/api/endpoints/plaid.py *)
Module Api.
Section Api.
Context {L : FernetLib} {D : DateLib} {P : PlaidApi}.
Import Sync.

(** [PlaidAccountSyncResponse]; [last_synced_at] is the instant whose ISO
    rendering the response carries. *)
Record PlaidAccountSyncResponse : Type := mkPlaidAccountSyncResponse {
  transactions_added : Z;
  transactions_modified : Z;
  transactions_removed : Z;
  last_synced_at : Z;
}.

Definition HTTP_404_NOT_FOUND : Z := 404.
Definition HTTP_400_BAD_REQUEST : Z := 400.

(** The endpoint's own query: the first row with this id that belongs to
    the caller; loading it decrypts its token. *)
Definition query_owned_account (account_id user_id : string)
  : M (option (nat * BankAccount.t)) :=
  fun w =>
    match list_find (fun a => BankAccount.id a = account_id
                              /\ BankAccount.user_id a = user_id)
            (bank_accounts (session w)) with
    | None => (Ok None, w)
    | Some (i, a) =>
        match Vault.decrypt (BankAccount.plaid_access_token a) (vault w) with
        | (Ok _, v) =>
            (Ok (Some (i, a)), mkWorld (persisted w) (session w) v (plaid_calls w))
        | (Raise e, v) =>
            (Raise e, mkWorld (persisted w) (session w) v (plaid_calls w))
        end
    end.

(** The body of the [try]: the run, then the response built from its
    counts and from the account object the endpoint holds, which is the
    session's row at the position the query found it. *)
Definition sync_and_respond (now : Z) (account_id : string) (i : nat)
  : M PlaidAccountSyncResponse :=
  bind (sync_account_transactions now account_id) (fun result =>
  bind get_session (fun db =>
  match bank_accounts db !! i ≫= BankAccount.last_synced_at with
  | Some at_ =>
      ret (mkPlaidAccountSyncResponse (added_count result)
             (modified_count result) (removed_count result) at_)
  | None =>
      raise (OtherException "'NoneType' object has no attribute 'isoformat'")
  end)).

(** [sync_account], the handler of [POST /accounts/{account_id}/sync], on
    the session [db] it is handed; [user_id] is [current_user.id]. *)
Definition sync_account (now : Z) (account_id user_id : string)
  : M PlaidAccountSyncResponse :=
  fun w =>
    match query_owned_account account_id user_id w with
    | (Raise e, w1) => (Raise e, w1)
    | (Ok None, w1) =>
        (Raise (HTTPException HTTP_404_NOT_FOUND "Account not found"), w1)
    | (Ok (Some (i, _)), w1) =>
        match sync_and_respond now account_id i w1 with
        | (Ok response, w2) => (Ok response, w2)
        | (Raise e, w2) =>
            (Raise (HTTPException HTTP_400_BAD_REQUEST
                      ("Failed to sync transactions: " +:+ str_exn e)),
             w2)
        end
    end.

End Api.
End Api.

(** ** More sample data *)
Module MoreFixtures.
Import Fixtures.
#[local] Existing Instances fernet_double hash_double date_double plaid_double.

(** A decoder that, unlike python-jose's, takes a call without key: the
    one decoder under which the verifier's own call can return claims. *)
Definition jose_keyless_double : JoseLib := {|
  jwt_decode := fun token _ =>
    match known_tokens !! token with
    | Some claims => Ok claims
    | None => Raise (JWTError "Not enough segments")
    end;
|}.

(** An aggregator that removes the item of the sample token and refuses
    any other. *)
Definition item_double : PlaidItemApi := {|
  item_remove := fun token =>
    if bool_decide (token = access_token) then Ok tt
    else Raise (ApiException "INVALID_ACCESS_TOKEN");
|}.

(** A broker that takes every task but those of the second account. *)
Definition queue_double : TaskQueue := {|
  delay := fun _ account_id =>
    if bool_decide (account_id = "acct-2")
    then Raise (OtherException "OperationalError: connection refused")
    else Ok tt;
|}.

(** A row entered by hand. *)
Definition manual_row : Sync.Transaction :=
  Sync.mkTransaction "acct-1" "house-1" None 500 "2024-01-02" None "Cash"
    None None None None None None false true None.

Definition synced_row : Sync.Transaction :=
  SyncSpec.created (account stored_token true) (txn "t0" 42) "2024-01-01" None.

Definition world_with_manual_row : Sync.World :=
  SyncSpec.with_txns [manual_row; synced_row] world_active.

(** A second user's account, with a token the item double refuses. *)
Definition other_account : BankAccount.t :=
  BankAccount.mk "acct-2" "house-2" "user-2" "plaid-acct-2" "item-2"
    (fernet_encrypt (b64_urlsafe good_key) "iv-3" "access-other")
    None true None None.

Definition other_row : Sync.Transaction :=
  SyncSpec.created other_account (txn "t5" 10) "2024-01-03" None.

Definition world_two_accounts : Sync.World :=
  let db := Sync.mkDatabase [account stored_token true; other_account]
              [synced_row; other_row; manual_row] in
  Sync.mkWorld db db (Vault.mkState good_key None) [].

(** The table before any migration: the token stored as plain text. *)
Definition world_plaintext : Sync.World :=
  world_of good_key (account access_token true).

(** An account whose stored cursor the aggregator rejects. *)
Definition world_bad_cursor : Sync.World :=
  world_of good_key
    (BankAccount.mk "acct-1" "house-1" "user-1" "plaid-acct-1" "item-1"
       stored_token (Some "zzz") true None None).

End MoreFixtures.

(** * Properties *)

(** ** Webhook verification *)
Module WebhookFacts.
Section WebhookFacts.
Context {H : HashLib} {J : JoseLib}.
Import Webhook.

(** With python-jose's [decode], the verifier's call raises before any
    claim is read. *)
Lemma keyless_decode_raises signature body now :
  key_is_required ->
  verify_claims signature body now = Raise (TypeError missing_key_msg).
Proof. intros Hkey. unfold verify_claims. rewrite Hkey. reflexivity. Qed.

(** C6, where the code departs from it: with python-jose's [decode], whose
    key is required, every request that carries a signature is answered
    with the generic status-500 error, whatever the token claims and
    whatever the time is.  A token issued more than [MAX_WEBHOOK_AGE]
    seconds ago is refused like any other, and never with the stale error,
    status 401 and [too_old_msg]: the age is not computed. *)
Theorem stale_webhook_is_server_error headers body now signature :
  key_is_required ->
  headers !! "Plaid-Verification" = Some signature ->
  str_truthy signature = true ->
  verify_plaid_webhook headers body now
    = Raise (HTTPException HTTP_500_INTERNAL_SERVER_ERROR
               "Webhook verification error") /\
  forall age,
    verify_plaid_webhook headers body now
      <> Raise (HTTPException HTTP_401_UNAUTHORIZED (too_old_msg age)).
Proof.
  intros Hkey Hhdr Hsig.
  assert (verify_plaid_webhook headers body now
            = Raise (HTTPException HTTP_500_INTERNAL_SERVER_ERROR
                       "Webhook verification error")) as ->.
  { unfold verify_plaid_webhook.
    rewrite Hhdr, Hsig, (keyless_decode_raises _ _ _ Hkey). reflexivity. }
  split; [reflexivity|]. intros age. discriminate.
Qed.

(** C10, where the code departs from it: with python-jose's [decode], no
    request verifies, with or without an issued-at claim in its token. *)
Theorem no_webhook_is_accepted headers body now :
  key_is_required ->
  is_ok (verify_plaid_webhook headers body now) = false.
Proof.
  intros Hkey. unfold verify_plaid_webhook.
  destruct (headers !! "Plaid-Verification") as [signature|]; [|reflexivity].
  destruct (str_truthy signature); cbn [negb]; [|reflexivity].
  rewrite (keyless_decode_raises _ _ _ Hkey). reflexivity.
Qed.

(** C8, as the code has it: an algorithm name other than sha256 and sha512
    raises [WebhookVerificationError], the class the verifier raises for
    its own failures, with the unsupported name in its message. *)
Theorem unsupported_algorithm_raises body signature secret algorithm :
  algorithm <> "sha256" ->
  algorithm <> "sha512" ->
  verify_hmac_signature body signature secret algorithm =
    Raise (WebhookVerificationError
             ("Failed to verify signature: Unsupported algorithm: " +:+ algorithm)).
Proof.
  intros H256 H512. unfold verify_hmac_signature.
  rewrite !bool_decide_eq_false_2 by assumption. reflexivity.
Qed.

(** A supported algorithm and ASCII signature give the comparison itself:
    a mismatch is the value [False], not an exception. *)
Lemma sha256_mismatch_is_false body signature secret :
  is_ascii signature = true ->
  is_ascii (hmac_sha256_hexdigest secret body) = true ->
  signature <> hmac_sha256_hexdigest secret body ->
  verify_hmac_signature body signature secret "sha256" = Ok false.
Proof.
  intros Ha Hb Hne. unfold verify_hmac_signature, compare_digest.
  rewrite bool_decide_eq_true_2 by reflexivity.
  rewrite Ha, Hb. cbn [andb].
  rewrite bool_decide_eq_false_2 by assumption. reflexivity.
Qed.

End WebhookFacts.
End WebhookFacts.

(** ** The credential vault *)
Module VaultFacts.
Section VaultFacts.
Context {L : FernetLib}.
Import Vault.

(** Starting the process validates nothing: any configured key is taken. *)
Lemma startup_accepts_any_key key :
  startup (Some key) = Ok (mkState key None).
Proof. reflexivity. Qed.

Lemma get_fernet_invalid key :
  Fernet (prepared_key key) = None ->
  _get_fernet (mkState key None) =
    (Raise (ValueError invalid_key_msg), mkState key None).
Proof.
  unfold _get_fernet. cbn [_fernet ENCRYPTION_KEY].
  intros ->. reflexivity.
Qed.

(** Empty input never reaches the key. *)
Lemma empty_passthrough iv st :
  encrypt iv "" st = (Ok "", st) /\ decrypt "" st = (Ok "", st).
Proof. split; reflexivity. Qed.

(** C9, as the code has it: the key is checked lazily.  Startup succeeds
    with any key; a key the Fernet constructor rejects makes the first
    [encrypt] or [decrypt] of a non-empty string raise [ValueError], and
    leaves the cache empty, so every later call fails the same way. *)
Theorem invalid_key_fails_on_first_use key iv text :
  Fernet (prepared_key key) = None ->
  str_truthy text = true ->
  startup (Some key) = Ok (mkState key None) /\
  encrypt iv text (mkState key None) =
    (Raise (ValueError invalid_key_msg), mkState key None) /\
  decrypt text (mkState key None) =
    (Raise (ValueError invalid_key_msg), mkState key None).
Proof.
  intros Hbad Htext. split; [reflexivity|].
  unfold encrypt, decrypt. rewrite Htext. cbn [negb].
  rewrite (get_fernet_invalid _ Hbad). split; reflexivity.
Qed.

(** A ciphertext the library rejects with [InvalidToken] surfaces as a
    [ValueError], never as a value. *)
Lemma decrypt_invalid_token st f st' ciphertext :
  str_truthy ciphertext = true ->
  _get_fernet st = (Ok f, st') ->
  fernet_decrypt f ciphertext = Raise InvalidToken ->
  decrypt ciphertext st = (Raise (ValueError invalid_token_msg), st').
Proof.
  intros Hc Hf Hd. unfold decrypt. rewrite Hc. cbn [negb].
  rewrite Hf, Hd. reflexivity.
Qed.

End VaultFacts.
End VaultFacts.

(** ** Transaction synchronisation *)
Module SyncFacts.
Section SyncFacts.
Context {L : FernetLib} {D : DateLib} {P : PlaidApi} {TQ : TaskQueue}.
Import Sync SyncSpec.

(** *** The steps of reconciliation as functions on the transaction rows *)

Lemma with_txns_id w : with_txns (txns w) w = w.
Proof. destruct w as [p [b t] v c]. reflexivity. Qed.

Lemma with_txns_twice l l' w : with_txns l (with_txns l' w) = with_txns l w.
Proof. reflexivity. Qed.

Lemma txns_with_txns l w : txns (with_txns l w) = l.
Proof. reflexivity. Qed.

Ltac run :=
  cbv beta iota delta
    [bind ret raise get_session put_session set_transactions
     set_bank_accounts query_transaction setattrs strptime txns] in *;
  cbn [session transactions bank_accounts persisted vault plaid_calls] in *.

Lemma update_runs p : runs_as (_update_transaction p) (update_l p) tt.
Proof.
  intros w r w'. unfold _update_transaction, update_l. run.
  destruct (list_find _ (transactions (session w))) as [[i t]|].
  - destruct (strptime_ymd (TxnData.date p)) as [d|]; cbn;
      intros [= <- <-]; (split; [eexists; reflexivity|]).
    + split; [reflexivity|]. unfold with_txns, upd. cbn. f_equal. f_equal.
      rewrite list_alter_alter_eq. reflexivity.
    + reflexivity.
  - intros [= <- <-]. split; [exists (txns w)|split; [reflexivity|]];
      symmetry; apply with_txns_id.
Qed.

Lemma remove_runs k : runs_as (_remove_transaction k) (remove_l k) tt.
Proof.
  intros w r w'. unfold _remove_transaction, remove_l. run.
  destruct (list_find _ (transactions (session w))) as [[i t]|];
    intros [= <- <-].
  - split; [eexists; reflexivity|]. split; reflexivity.
  - split; [exists (txns w)|split; [reflexivity|]];
      symmetry; apply with_txns_id.
Qed.

Lemma save_runs a p : runs_as (_save_transaction a p) (save_l a p) tt.
Proof.
  intros w r w'. unfold _save_transaction, save_l, parse_authorized. run.
  destruct (list_find _ (transactions (session w))) as [[i t]|].
  - apply update_runs.
  - destruct (strptime_ymd (TxnData.date p)) as [d|]; cbn;
      [|intros [= <- <-]; split;
        [exists (txns w); symmetry; apply with_txns_id | reflexivity]].
    destruct (TxnData.authorized_date p) as [s|]; cbn;
      [destruct (str_truthy s); cbn;
       [destruct (strptime_ymd s) as [ad|]; cbn|]|];
      intros [= <- <-];
      first [ split; [eexists; reflexivity|split; reflexivity]
            | split; [exists (txns w); symmetry; apply with_txns_id | reflexivity] ].
Qed.

Lemma ret_runs {A} (v : A) : runs_as (ret v) Some v.
Proof.
  intros w r w' [= <- <-].
  split; [exists (txns w)|split; [reflexivity|]]; symmetry; apply with_txns_id.
Qed.

Lemma bind_runs {A B} (m : M A) (k : A -> M B) f g v v' :
  runs_as m f v ->
  runs_as (k v) g v' ->
  runs_as (bind m k) (fun l => l' ← f l; g l') v'.
Proof.
  intros Hm Hk w r w'. unfold bind.
  destruct (m w) as [r1 w1] eqn:E1.
  destruct (Hm _ _ _ E1) as [[l1 ->] H1].
  destruct (f (txns w)) as [l'|]; cbn.
  - destruct H1 as [-> H1]. intros E2.
    destruct (Hk _ _ _ E2) as [[l2 ->] H2].
    rewrite H1 in *. rewrite with_txns_twice in *.
    split; [eexists; reflexivity|].
    rewrite txns_with_txns in H2. exact H2.
  - destruct r1 as [a|e]; [discriminate|]. intros [= <- <-].
    split; [eexists; reflexivity|reflexivity].
Qed.

Lemma for_count_runs {A} (body : A -> M unit) f xs c :
  (forall x, runs_as (body x) (f x) tt) ->
  runs_as (for_count body xs c) (steps f xs) (c + Z.of_nat (length xs)).
Proof.
  intros Hbody. revert c.
  induction xs as [|x xs IH]; intros c; cbn [for_count steps length].
  - replace (c + Z.of_nat 0) with c by lia. apply ret_runs.
  - replace (c + Z.of_nat (S (length xs))) with (c + 1 + Z.of_nat (length xs)) by lia.
    apply (bind_runs _ _ _ _ tt); [apply Hbody | apply IH].
Qed.

Lemma runs_ext {A} (m : M A) f g v :
  (forall l, f l = g l) -> runs_as m f v -> runs_as m g v.
Proof.
  intros Hfg Hm w r w' E. rewrite <- Hfg. exact (Hm w r w' E).
Qed.

Lemma apply_runs a r :
  runs_as (apply_sync_result a r) (apply_l a r) (counts_of r).
Proof.
  unfold apply_sync_result.
  eapply runs_ext; cycle 1.
  - eapply bind_runs; [apply for_count_runs, save_runs|].
    eapply bind_runs; [apply for_count_runs, update_runs|].
    eapply bind_runs; [apply for_count_runs, remove_runs|].
    apply ret_runs.
  - intros l. unfold apply_l. cbn beta.
    destruct (steps (save_l a) (added r) l) as [l1|]; [cbn|reflexivity].
    destruct (steps update_l (modified r) l1) as [l2|]; [cbn|reflexivity].
    destruct (steps remove_l (removed r) l2); reflexivity.
Qed.

(** What [runs_as] gives for a run that returned, and for one whose rows
    function is defined. *)
Lemma runs_ok {A} (m : M A) f v w c w' :
  runs_as m f v -> m w = (Ok c, w') ->
  exists l', f (txns w) = Some l' /\ w' = with_txns l' w /\ c = v.
Proof.
  intros Hm E. destruct (Hm _ _ _ E) as [_ H].
  destruct (f (txns w)) as [l'|]; [|discriminate].
  destruct H as [[= ->] ->]. eauto.
Qed.

Lemma runs_total {A} (m : M A) f v w l' :
  runs_as m f v -> f (txns w) = Some l' -> m w = (Ok v, with_txns l' w).
Proof.
  intros Hm Hf. destruct (m w) as [r w'] eqn:E.
  destruct (Hm _ _ _ E) as [_ H]. rewrite Hf in H.
  destruct H as [-> ->]. reflexivity.
Qed.

Lemma runs_frame {A} (m : M A) f v w r w' :
  runs_as m f v -> m w = (r, w') -> exists l, w' = with_txns l w.
Proof. intros Hm E. exact (proj1 (Hm _ _ _ E)). Qed.

(** Payloads whose dates parse never make a step raise. *)
Lemma update_l_total p l : parses p -> is_Some (update_l p l).
Proof.
  intros [d Hd]. unfold update_l. rewrite Hd.
  destruct (list_find _ l) as [[i t]|]; cbn; eauto.
Qed.

Lemma save_l_total a p l : dates_parse p -> is_Some (save_l a p l).
Proof.
  intros [Hp [ad Had]]. unfold save_l.
  destruct (list_find _ l) as [[i t]|]; [apply update_l_total, Hp|].
  destruct Hp as [d Hd]. rewrite Hd, Had. cbn. eauto.
Qed.

Lemma remove_l_total k l : is_Some (remove_l k l).
Proof. unfold remove_l. destruct (list_find _ l) as [[i t]|]; eauto. Qed.

Lemma steps_total {A} (f : A -> list Transaction -> option (list Transaction))
  (Q : A -> Prop) xs l :
  (forall x l, Q x -> is_Some (f x l)) -> Forall Q xs -> is_Some (steps f xs l).
Proof.
  intros Hf Hxs. revert l.
  induction Hxs as [|x xs Hx _ IH]; intros l; cbn [steps]; [eauto|].
  destruct (Hf x l Hx) as [l' ->]. cbn. apply IH.
Qed.

Lemma apply_l_total a r l :
  Forall dates_parse (added r) -> Forall parses (modified r) ->
  is_Some (apply_l a r l).
Proof.
  intros Ha Hm. unfold apply_l.
  destruct (steps_total (save_l a) dates_parse (added r) l
              (fun x l => save_l_total a x l) Ha) as [l1 ->]. cbn.
  destruct (steps_total update_l parses (modified r) l1 update_l_total Hm)
    as [l2 ->]. cbn.
  apply (steps_total remove_l (fun _ => True)).
  - intros k l0 _. apply remove_l_total.
  - apply Forall_forall. intros; exact I.
Qed.

(** *** One run of [sync_account_transactions], stage by stage *)

Lemma sync_stages now account_id w :
  sync_account_transactions now account_id w =
  match find_account account_id (session w) with
  | None => (Raise (ValueError ("Account " +:+ account_id +:+ " not found")), w)
  | Some (i, a) =>
      match Vault.decrypt (BankAccount.plaid_access_token a) (vault w) with
      | (Raise e, v) => (Raise e, after_load v w)
      | (Ok token, v) =>
          let cursor := BankAccount.plaid_cursor a in
          match TransactionsSyncRequest token cursor with
          | Raise e => (Raise e, after_load v w)
          | Ok _ =>
              let w1 := after_call token cursor (after_load v w) in
              match transactions_sync (plaid_calls w) token cursor with
              | Raise e => (Raise e, w1)
              | Ok resp =>
                  match apply_sync_result a (result_of resp) w1 with
                  | (Ok counts, w2) =>
                      (Ok counts,
                       after_commit
                         (mark_synced (SyncResponse.next_cursor resp) now) i w2)
                  | (Raise e, w2) => (Raise e, w2)
                  end
              end
          end
      end
  end.
Proof.
  unfold sync_account_transactions, query_account, sync_transactions, bind at 1.
  destruct (find_account account_id (session w)) as [[i a]|]; [|reflexivity].
  destruct (Vault.decrypt _ (vault w)) as [[token|e] v]; [|reflexivity].
  cbn zeta. unfold bind at 1.
  destruct (TransactionsSyncRequest token (BankAccount.plaid_cursor a))
    as [request|e]; [|reflexivity].
  cbn [persisted session vault plaid_calls].
  destruct (transactions_sync (plaid_calls w) token (BankAccount.plaid_cursor a))
    as [resp|e]; [|reflexivity].
  unfold bind at 1. fold (result_of resp).
  unfold after_call, after_load.
  destruct (apply_sync_result a (result_of resp) _) as [[counts|e] w2];
    reflexivity.
Qed.

(** A run that raises has committed nothing, and no run makes more than
    one request. *)
Lemma sync_raise_persisted now account_id w e w' :
  sync_account_transactions now account_id w = (Raise e, w') ->
  persisted w' = persisted w.
Proof.
  rewrite sync_stages.
  destruct (find_account account_id (session w)) as [[i a]|];
    [|intros [= _ <-]; reflexivity].
  destruct (Vault.decrypt _ (vault w)) as [[token|e'] v];
    [|intros [= _ <-]; reflexivity].
  cbn zeta.
  destruct (TransactionsSyncRequest _ _) as [request|e'];
    [|intros [= _ <-]; reflexivity].
  destruct (transactions_sync _ _ _) as [resp|e'];
    [|intros [= _ <-]; reflexivity].
  destruct (apply_sync_result _ _ _) as [[counts|e'] w2] eqn:E;
    [discriminate|].
  intros [= _ <-].
  destruct (runs_frame _ _ _ _ _ _ (apply_runs _ _) E) as [l ->].
  reflexivity.
Qed.

Lemma sync_requests now account_id w r w' :
  sync_account_transactions now account_id w = (r, w') ->
  plaid_calls w' = plaid_calls w \/
  exists token cursor, plaid_calls w' = plaid_calls w ++ [(token, cursor)].
Proof.
  rewrite sync_stages.
  destruct (find_account account_id (session w)) as [[i a]|];
    [|intros [= _ <-]; left; reflexivity].
  destruct (Vault.decrypt _ (vault w)) as [[token|e'] v];
    [|intros [= _ <-]; left; reflexivity].
  cbn zeta.
  destruct (TransactionsSyncRequest _ _) as [request|e'];
    [|intros [= _ <-]; left; reflexivity].
  destruct (transactions_sync _ _ _) as [resp|e'];
    [|intros [= _ <-]; right; eauto].
  destruct (apply_sync_result _ _ _) as [[counts|e'] w2] eqn:E;
    intros [= _ <-];
    destruct (runs_frame _ _ _ _ _ _ (apply_runs _ _) E) as [l ->];
    right; eauto.
Qed.

Lemma unknown_account_raises now account_id w :
  find_account account_id (session w) = None ->
  sync_account_transactions now account_id w =
    (Raise (ValueError ("Account " +:+ account_id +:+ " not found")), w).
Proof. intros Hfind. rewrite sync_stages, Hfind. reflexivity. Qed.

(** C3: when decrypting the stored access token of the account fails, the
    run raises that error at once: nothing is committed, the session is
    untouched (so the cursor stays as it was) and no request is made. *)
Theorem decrypt_failure_aborts now account_id w i a e v :
  find_account account_id (session w) = Some (i, a) ->
  Vault.decrypt (BankAccount.plaid_access_token a) (vault w) = (Raise e, v) ->
  sync_account_transactions now account_id w =
    (Raise e, mkWorld (persisted w) (session w) v (plaid_calls w)).
Proof.
  intros Hfind Hdec. rewrite sync_stages, Hfind, Hdec. reflexivity.
Qed.

(** The task turns every exception of the service into a call of [retry]
    with a countdown of 300 seconds, after rolling back. *)
Lemma task_on_raise n now account_id w e w1 :
  sync_account_transactions now account_id (SessionLocal w) = (Raise e, w1) ->
  task_sync_account_transactions n now account_id w =
    (retry n e 300, close (rollback w1)).
Proof.
  intros E. unfold task_sync_account_transactions. cbn zeta. rewrite E.
  reflexivity.
Qed.

Lemma retrying_below_ceiling n now account_id w exc countdown w' :
  task_sync_account_transactions n now account_id w
    = (Retrying exc countdown, w') ->
  (n < max_retries)%nat.
Proof.
  unfold task_sync_account_transactions, retry. cbn zeta.
  destruct (sync_account_transactions _ _ _) as [[c|e] w1]; [discriminate|].
  destruct (decide (max_retries < n + 1)%nat); [discriminate|]. lia.
Qed.

Lemma executions_bounded fuel n now account_id w :
  (length (executions fuel n now account_id w).1 <= S (max_retries - n))%nat.
Proof.
  revert n now w. induction fuel as [|fuel IH]; intros n now w; cbn [executions].
  - cbn [fst length]. lia.
  - destruct (task_sync_account_transactions n now account_id w)
      as [[id c|exc countdown|exc] w'] eqn:E; cbn [fst length]; try lia.
    apply retrying_below_ceiling in E.
    specialize (IH (S n) (now + countdown) w').
    destruct (executions fuel (S n) (now + countdown) account_id w') as [rest w''].
    cbn [fst length] in *. unfold max_retries in *. lia.
Qed.

(** C4, as the code has it: the task retries every failure of the service,
    whatever its kind, always after the same 300 seconds; once
    [max_retries] retries have been made the exception is raised instead.
    A failed execution commits nothing, and a task is executed at most
    [max_retries + 1] times. *)
Theorem every_failure_retried n now account_id w e w1 :
  sync_account_transactions now account_id (SessionLocal w) = (Raise e, w1) ->
  (task_sync_account_transactions n now account_id w).1
    = (if decide (n < max_retries)%nat then Retrying e 300 else Failed e) /\
  persisted (task_sync_account_transactions n now account_id w).2
    = persisted w /\
  forall fuel,
    (length (executions fuel 0 now account_id w).1 <= S max_retries)%nat.
Proof.
  intros E. rewrite (task_on_raise _ _ _ _ _ _ E). cbn [fst snd].
  split; [|split].
  - unfold retry.
    destruct (decide (max_retries < n + 1)%nat), (decide (n < max_retries)%nat);
      try reflexivity; lia.
  - apply sync_raise_persisted in E. cbn. exact E.
  - intros fuel. pose proof (executions_bounded fuel 0 now account_id w). lia.
Qed.

(** A run that returns went through every stage once. *)
Lemma sync_ok_stages now account_id w counts w' :
  sync_account_transactions now account_id w = (Ok counts, w') ->
  exists i a token v resp l',
    find_account account_id (session w) = Some (i, a) /\
    Vault.decrypt (BankAccount.plaid_access_token a) (vault w) = (Ok token, v) /\
    transactions_sync (plaid_calls w) token (BankAccount.plaid_cursor a) = Ok resp /\
    apply_l a (result_of resp) (txns w) = Some l' /\
    counts = counts_of (result_of resp) /\
    w' = after_commit (mark_synced (SyncResponse.next_cursor resp) now) i
           (with_txns l'
              (after_call token (BankAccount.plaid_cursor a) (after_load v w))).
Proof.
  rewrite sync_stages.
  destruct (find_account account_id (session w)) as [[i a]|] eqn:Hfind;
    [|discriminate].
  destruct (Vault.decrypt _ (vault w)) as [[token|e'] v] eqn:Hdec;
    [|discriminate].
  cbn zeta.
  destruct (TransactionsSyncRequest _ _) as [request|e']; [|discriminate].
  destruct (transactions_sync _ _ _) as [resp|e'] eqn:Hresp; [|discriminate].
  destruct (apply_sync_result _ _ _) as [[c|e'] w2] eqn:E; [|discriminate].
  intros [= <- <-].
  destruct (runs_ok _ _ _ _ _ _ (apply_runs _ _) E) as (l' & Hl & -> & ->).
  exists i, a, token, v, resp, l'.
  repeat split; first [assumption | reflexivity].
Qed.

Lemma find_account_lookup account_id db i a :
  find_account account_id db = Some (i, a) ->
  bank_accounts db !! i = Some a /\ BankAccount.id a = account_id.
Proof.
  unfold find_account. intros (? & ? & _)%list_find_Some. split; assumption.
Qed.

(** C1, as the code has it.  A run makes at most one request to the
    aggregator, and the request it makes carries the decrypted token and
    the cursor stored with the account; a run that raises has committed
    nothing.  A run that returns found a stored cursor, made exactly one
    request, with that cursor; its counts are the sizes of the lists of
    that one page, the committed transactions are what the reconciler makes
    of that one page, and the committed cursor is the [next_cursor] of that
    one response, whatever the response says about [has_more]. *)
Theorem one_request_per_run now account_id w r w' :
  sync_account_transactions now account_id w = (r, w') ->
  (plaid_calls w' = plaid_calls w \/
   exists i a token v cursor,
     find_account account_id (session w) = Some (i, a) /\
     Vault.decrypt (BankAccount.plaid_access_token a) (vault w) = (Ok token, v) /\
     BankAccount.plaid_cursor a = Some cursor /\
     plaid_calls w' = plaid_calls w ++ [(token, Some cursor)]) /\
  (forall e, r = Raise e -> persisted w' = persisted w) /\
  (forall counts, r = Ok counts ->
     exists i a token v cursor resp,
       find_account account_id (session w) = Some (i, a) /\
       Vault.decrypt (BankAccount.plaid_access_token a) (vault w) = (Ok token, v) /\
       BankAccount.plaid_cursor a = Some cursor /\
       transactions_sync (plaid_calls w) token (Some cursor) = Ok resp /\
       plaid_calls w' = plaid_calls w ++ [(token, Some cursor)] /\
       counts = counts_of (result_of resp) /\
       apply_l a (result_of resp) (txns w) = Some (transactions (persisted w')) /\
       bank_accounts (persisted w')
         = alter (mark_synced (SyncResponse.next_cursor resp) now) i
             (bank_accounts (session w)) /\
       session w' = persisted w').
Proof.
  rewrite sync_stages.
  destruct (find_account account_id (session w)) as [[i a]|] eqn:Hfind;
    [|intros [= <- <-]; split; [left; reflexivity|];
      split; [reflexivity | intros ? [=]]].
  destruct (Vault.decrypt _ (vault w)) as [[token|e'] v] eqn:Hdec;
    [|intros [= <- <-]; split; [left; reflexivity|];
      split; [reflexivity | intros ? [=]]].
  cbn zeta.
  destruct (BankAccount.plaid_cursor a) as [cursor|] eqn:Hcur;
    cbn [TransactionsSyncRequest];
    [|intros [= <- <-]; split; [left; reflexivity|];
      split; [reflexivity | intros ? [=]]].
  destruct (transactions_sync _ _ _) as [resp|e'] eqn:Hresp.
  - destruct (apply_sync_result _ _ _) as [[counts|e'] w2] eqn:E.
    + destruct (runs_ok _ _ _ _ _ _ (apply_runs _ _) E) as (l' & Hl & -> & ->).
      intros [= <- <-].
      split; [right; exists i, a, token, v, cursor;
        repeat split; first [assumption | reflexivity]|]. split; [intros ? [=]|].
      intros counts [= <-]. exists i, a, token, v, cursor, resp.
      repeat split; first [assumption | reflexivity].
    + destruct (runs_frame _ _ _ _ _ _ (apply_runs _ _) E) as [l ->].
      intros [= <- <-].
      split; [right; exists i, a, token, v, cursor;
        repeat split; first [assumption | reflexivity]|].
      split; [reflexivity | intros ? [=]].
  - intros [= <- <-].
    split; [right; exists i, a, token, v, cursor;
        repeat split; first [assumption | reflexivity]|].
    split; [reflexivity | intros ? [=]].
Qed.

(** C7, as the code has it: the run never looks at [is_active].  For an
    inactive account with a stored cursor whose token decrypts, whose
    request is answered and whose page reconciles, the run returns the
    counts, has made the request and has committed the new rows and the new
    cursor; the account stays inactive. *)
Theorem inactive_account_is_synced now account_id w i a token v cursor resp :
  find_account account_id (session w) = Some (i, a) ->
  BankAccount.is_active a = false ->
  Vault.decrypt (BankAccount.plaid_access_token a) (vault w) = (Ok token, v) ->
  BankAccount.plaid_cursor a = Some cursor ->
  transactions_sync (plaid_calls w) token (Some cursor) = Ok resp ->
  Forall dates_parse (added (result_of resp)) ->
  Forall parses (modified (result_of resp)) ->
  exists w',
    sync_account_transactions now account_id w
      = (Ok (counts_of (result_of resp)), w') /\
    plaid_calls w' = plaid_calls w ++ [(token, Some cursor)] /\
    apply_l a (result_of resp) (txns w) = Some (transactions (persisted w')) /\
    bank_accounts (persisted w') !! i
      = Some (mark_synced (SyncResponse.next_cursor resp) now a) /\
    BankAccount.is_active
      (mark_synced (SyncResponse.next_cursor resp) now a) = false.
Proof.
  intros Hfind Hinactive Hdec Hcur Hresp Ha Hm.
  destruct (apply_l_total a (result_of resp) (txns w) Ha Hm) as [l' Hl].
  eexists. rewrite sync_stages, Hfind, Hdec. cbn zeta.
  rewrite Hcur. cbn [TransactionsSyncRequest]. rewrite Hresp.
  erewrite (runs_total _ _ _ _ l' (apply_runs _ _)) by exact Hl.
  split; [reflexivity|]. cbn.
  split; [reflexivity|]. split; [exact Hl|].
  split; [|exact Hinactive].
  rewrite list_lookup_alter_eq.
  apply find_account_lookup in Hfind as [-> _]. reflexivity.
Qed.

(** Where runs are queued, inactive accounts are left out. *)
Lemma load_rows_ok rows w loaded w' :
  load_rows rows w = (Ok loaded, w') -> loaded = rows.
Proof.
  revert w loaded w'.
  induction rows as [|[i a] rows IH]; intros w loaded w'; cbn [load_rows].
  - intros [= <- _]. reflexivity.
  - destruct (Vault.decrypt _ (vault w)) as [[t|e] v]; [|discriminate].
    unfold bind, ret.
    destruct (load_rows rows _) as [[rest|e] w1] eqn:E; [|discriminate].
    intros [= <- _]. f_equal. exact (IH _ _ _ E).
Qed.

Lemma query_accounts_ok keep w loaded w' x :
  query_accounts keep w = (Ok loaded, w') ->
  x ∈ loaded -> keep x.2 = true /\ x.2 ∈ bank_accounts (session w).
Proof.
  unfold query_accounts, bind, get_session. intros E Hx.
  apply load_rows_ok in E. subst loaded.
  apply list_elem_of_filter in Hx as [Hkeep Hx]. split; [exact Hkeep|].
  apply elem_of_lookup_imap_1 in Hx as (j & y & -> & Hy).
  exact (list_elem_of_lookup_2 _ _ _ Hy).
Qed.

Lemma queue_until_failure_elem accounts queued x :
  x ∈ queue_until_failure accounts queued ->
  x ∈ queued \/ exists ia, ia ∈ accounts /\ x = BankAccount.id ia.2.
Proof.
  revert queued. induction accounts as [|ia accounts IH]; intros queued;
    cbn [queue_until_failure]; [left; assumption|].
  destruct (delay queued (BankAccount.id ia.2)); [|left; assumption].
  intros [Hq|(ib & Hib & ->)]%IH.
  - apply elem_of_app in Hq as [Hq|Hq%list_elem_of_singleton]; [left; exact Hq|].
    right. exists ia. split; [left|exact Hq].
  - right. exists ib. split; [right; exact Hib|reflexivity].
Qed.

(** X18: every run the webhook task queues is for an account that is
    stored, belongs to the item of the webhook and is active. *)
Lemma webhook_queues_active_only webhook_type webhook_code item_id w account_id :
  account_id ∈ (handle_plaid_webhook webhook_type webhook_code item_id w).1 ->
  exists a, a ∈ bank_accounts (persisted w) /\
            BankAccount.id a = account_id /\
            BankAccount.plaid_item_id a = item_id /\
            BankAccount.is_active a = true.
Proof.
  unfold handle_plaid_webhook. cbn zeta.
  repeat case_bool_decide; cbn [fst];
    try (intros []%elem_of_nil);
    try (destruct (bind _ _ _) as [? ?]; cbn [fst]; intros []%elem_of_nil).
  destruct (query_accounts _ _) as [[loaded|e] w1] eqn:E; cbn [fst];
    [|intros []%elem_of_nil].
  intros [[]%elem_of_nil|(x & Hx & ->)]%queue_until_failure_elem.
  destruct (query_accounts_ok _ _ _ _ _ E Hx) as [Hkeep Hin].
  apply andb_prop in Hkeep as [Hitem%bool_decide_eq_true Hactive].
  exists x.2. repeat split; assumption.
Qed.

(** *** The stored amount *)

Lemma upd_keeps_id p d t :
  plaid_transaction_id (upd p d t) = plaid_transaction_id t.
Proof. reflexivity. Qed.

Lemma find_after_alter k f i t (l : list Transaction) :
  (forall x, plaid_transaction_id (f x) = plaid_transaction_id x) ->
  list_find (has_tid k) l = Some (i, t) ->
  list_find (has_tid k) (alter f i l) = Some (i, f t).
Proof.
  intros Hf (Hi & Ht & Hbefore)%list_find_Some.
  apply list_find_Some. split; [|split].
  - rewrite list_lookup_alter_eq, Hi. reflexivity.
  - unfold has_tid in *. rewrite Hf. exact Ht.
  - intros j y Hj Hlt. rewrite list_lookup_alter_ne in Hj by lia.
    exact (Hbefore j y Hj Hlt).
Qed.

Lemma update_l_stored p l l' i t :
  list_find (has_tid (TxnData.transaction_id p)) l = Some (i, t) ->
  update_l p l = Some l' ->
  exists t', list_find (has_tid (TxnData.transaction_id p)) l' = Some (i, t') /\
             amount t' = Z.abs (TxnData.amount p).
Proof.
  intros Hfind. unfold update_l. rewrite Hfind.
  destruct (strptime_ymd (TxnData.date p)) as [d|]; [|discriminate].
  intros [= <-]. exists (upd p d t). split; [|reflexivity].
  apply find_after_alter; [apply upd_keeps_id | exact Hfind].
Qed.

(** C5, as the code has it: after [_save_transaction] returns, and after
    [_update_transaction] returns for an id that was stored, the stored
    row's amount is the absolute value of the provider's amount. *)
Theorem stored_amount_is_absolute a p w w' :
  _save_transaction a p w = (Ok tt, w') \/
  (_update_transaction p w = (Ok tt, w') /\ is_Some (stored p w)) ->
  exists t, stored p w' = Some t /\ amount t = Z.abs (TxnData.amount p).
Proof.
  unfold stored.
  intros [E|[E [t0 Ht0]]].
  - destruct (runs_ok _ _ _ _ _ _ (save_runs a p) E) as (l' & Hl & -> & _).
    rewrite txns_with_txns. unfold save_l in Hl.
    destruct (list_find _ (txns w)) as [[i t]|] eqn:Hfind.
    + destruct (update_l_stored _ _ _ _ _ Hfind Hl) as (t' & -> & Ht').
      exists t'. split; [reflexivity | exact Ht'].
    + destruct (strptime_ymd (TxnData.date p)) as [d|]; [|discriminate].
      destruct (parse_authorized p) as [ad|]; [|discriminate].
      cbn in Hl. injection Hl as <-.
      rewrite list_find_app_r by exact Hfind. cbn [list_find].
      rewrite decide_True by reflexivity.
      eexists. split; reflexivity.
  - destruct (runs_ok _ _ _ _ _ _ (update_runs p) E) as (l' & Hl & -> & _).
    rewrite txns_with_txns.
    destruct (list_find _ (txns w)) as [[i t]|] eqn:Hfind; [|discriminate].
    destruct (update_l_stored _ _ _ _ _ Hfind Hl) as (t' & -> & Ht').
    exists t'. split; [reflexivity | exact Ht'].
Qed.

(** *** Reconciling the same page twice *)

Lemma keys_cons t l :
  keys (t :: l) =
    match plaid_transaction_id t with Some k => k :: keys l | None => keys l end.
Proof. reflexivity. Qed.

Lemma keys_app l1 l2 : keys (l1 ++ l2) = keys l1 ++ keys l2.
Proof. apply omap_app. Qed.

Lemma elem_of_keys k l : k ∈ keys l <-> exists t, t ∈ l /\ has_tid k t.
Proof. apply list_elem_of_omap. Qed.

Lemma unique_ids_tail t l : unique_ids (t :: l) -> unique_ids l.
Proof.
  unfold unique_ids. rewrite keys_cons.
  destruct (plaid_transaction_id t); [|trivial].
  intros [_ ?]%NoDup_cons. assumption.
Qed.

Lemma unique_ids_head k t l :
  unique_ids (t :: l) -> has_tid k t -> k ∉ keys l.
Proof.
  unfold unique_ids, has_tid. rewrite keys_cons. intros Hu Ht.
  rewrite Ht in Hu. apply NoDup_cons in Hu as [? _]. assumption.
Qed.

Lemma find_none_keys k l : list_find (has_tid k) l = None <-> k ∉ keys l.
Proof.
  rewrite list_find_None, Forall_forall, elem_of_keys. split.
  - intros Hno (t & Ht & Hk). exact (Hno t Ht Hk).
  - intros Hno t Ht Hk. apply Hno. exists t. split; assumption.
Qed.

Lemma updp_keeps_id p t :
  plaid_transaction_id (updp p t) = plaid_transaction_id t.
Proof. unfold updp. destruct (strptime_ymd _); reflexivity. Qed.

Lemma touch_keeps_id p t :
  plaid_transaction_id (touch p t) = plaid_transaction_id t.
Proof. unfold touch. case_decide; [apply updp_keeps_id | reflexivity]. Qed.

Lemma keys_fmap_keeps (f : Transaction -> Transaction) l :
  (forall t, plaid_transaction_id (f t) = plaid_transaction_id t) ->
  keys (f <$> l) = keys l.
Proof.
  intros Hf. induction l as [|t l IH]; [reflexivity|].
  rewrite fmap_cons, !keys_cons, Hf, IH. reflexivity.
Qed.

Lemma keys_fmap_touch p l : keys (touch p <$> l) = keys l.
Proof. apply keys_fmap_keeps, touch_keeps_id. Qed.

(** With unique ids, changing the row a query found is changing every row
    with that id, and deleting it is deleting every such row. *)
Lemma fmap_absent k (f : Transaction -> Transaction) l :
  k ∉ keys l ->
  (fun t => if decide (has_tid k t) then f t else t) <$> l = l.
Proof.
  intros Hk. induction l as [|t l IH]; [reflexivity|].
  rewrite fmap_cons.
  rewrite decide_False by (intros Ht; apply Hk, elem_of_keys; exists t;
                           split; [left | exact Ht]).
  rewrite IH; [reflexivity|].
  intros (t' & ? & ?)%elem_of_keys. apply Hk, elem_of_keys.
  exists t'. split; [right|]; assumption.
Qed.

Lemma touch_absent p l : TxnData.transaction_id p ∉ keys l -> touch p <$> l = l.
Proof. apply fmap_absent. Qed.

Lemma alter_unique k (f : Transaction -> Transaction) l i t :
  unique_ids l ->
  list_find (has_tid k) l = Some (i, t) ->
  alter f i l = (fun t => if decide (has_tid k t) then f t else t) <$> l.
Proof.
  revert i. induction l as [|r l IH]; intros i Hu; [discriminate|].
  cbn [list_find]. rewrite fmap_cons. case_decide as Hr.
  - intros [= <- <-]. cbn. f_equal. symmetry. apply fmap_absent.
    exact (unique_ids_head _ _ _ Hu Hr).
  - destruct (list_find (has_tid k) l) as [[i' t']|] eqn:E; [|discriminate].
    intros [= <- <-]. cbn. f_equal.
    exact (IH i' (unique_ids_tail _ _ Hu) eq_refl).
Qed.

Lemma filter_absent k l :
  k ∉ keys l -> filter (fun t => ~ has_tid k t) l = l.
Proof.
  intros Hk. induction l as [|t l IH]; [reflexivity|].
  rewrite filter_cons_True.
  - rewrite IH; [reflexivity|].
    intros (t' & ? & ?)%elem_of_keys. apply Hk, elem_of_keys.
    exists t'. split; [right|]; assumption.
  - intros Ht. apply Hk, elem_of_keys. exists t. split; [left | exact Ht].
Qed.

Lemma delete_unique k l i t :
  unique_ids l ->
  list_find (has_tid k) l = Some (i, t) ->
  delete i l = filter (fun t => ~ has_tid k t) l.
Proof.
  revert i. induction l as [|r l IH]; intros i Hu; [discriminate|].
  cbn [list_find]. case_decide as Hr.
  - intros [= <- <-]. cbn [delete list_delete].
    rewrite filter_cons_False by (intros Hn; exact (Hn Hr)).
    symmetry. apply filter_absent. exact (unique_ids_head _ _ _ Hu Hr).
  - destruct (list_find (has_tid k) l) as [[i' t']|] eqn:E; [|discriminate].
    intros [= <- <-]. cbn [delete list_delete].
    rewrite filter_cons_True by exact Hr. f_equal.
    exact (IH i' (unique_ids_tail _ _ Hu) eq_refl).
Qed.

Lemma updp_parsed p d t : strptime_ymd (TxnData.date p) = Some d -> updp p t = upd p d t.
Proof. unfold updp. intros ->. reflexivity. Qed.

Lemma update_l_touch p l l' :
  unique_ids l ->
  update_l p l = Some l' ->
  l' = touch p <$> l /\ (TxnData.transaction_id p ∈ keys l -> parses p).
Proof.
  intros Hu. unfold update_l.
  destruct (list_find _ l) as [[i t]|] eqn:Hfind.
  - destruct (strptime_ymd (TxnData.date p)) as [d|] eqn:Hd; [|discriminate].
    intros [= <-]. split; [|intros _; unfold parses; rewrite Hd; eauto].
    rewrite (alter_unique _ _ _ _ _ Hu Hfind).
    apply list_fmap_ext. intros _ t' _. unfold touch.
    case_decide; [|reflexivity]. symmetry. apply updp_parsed, Hd.
  - intros [= <-]. apply find_none_keys in Hfind. split.
    + symmetry. apply touch_absent, Hfind.
    + intros Hin. contradiction.
Qed.

(** A row [_save_transaction] has just constructed is what an update with
    the same payload would leave of it. *)
Lemma updp_created a p d ad :
  strptime_ymd (TxnData.date p) = Some d ->
  updp p (created a p d ad) = created a p d ad.
Proof. intros Hd. rewrite (updp_parsed _ _ _ Hd). reflexivity. Qed.

Lemma save_l_cases a p l l' :
  unique_ids l ->
  save_l a p l = Some l' ->
  parses p /\
  ((TxnData.transaction_id p ∈ keys l /\ l' = touch p <$> l) \/
   ((TxnData.transaction_id p ∉ keys l) /\
    exists t, l' = l ++ [t] /\ has_tid (TxnData.transaction_id p) t /\
              updp p t = t)).
Proof.
  intros Hu. unfold save_l.
  destruct (list_find _ l) as [[i t]|] eqn:Hfind.
  - intros Hl. destruct (update_l_touch _ _ _ Hu Hl) as [-> Hparses].
    assert (TxnData.transaction_id p ∈ keys l) as Hin.
    { apply elem_of_keys. apply list_find_Some in Hfind as (Hi & Ht & _).
      exists t. split; [exact (list_elem_of_lookup_2 _ _ _ Hi) | exact Ht]. }
    split; [exact (Hparses Hin)|]. left. split; [exact Hin | reflexivity].
  - destruct (strptime_ymd (TxnData.date p)) as [d|] eqn:Hd; [|discriminate].
    destruct (parse_authorized p) as [ad|]; [|discriminate].
    intros [= <-]. split; [unfold parses; rewrite Hd; eauto|]. right.
    split; [apply find_none_keys, Hfind|].
    exists (created a p d ad).
    split; [reflexivity|]. split; [reflexivity | apply updp_created, Hd].
Qed.

Lemma remove_l_filter k l :
  unique_ids l ->
  remove_l k l = Some (filter (fun t => ~ has_tid k t) l).
Proof.
  intros Hu. unfold remove_l.
  destruct (list_find _ l) as [[i t]|] eqn:Hfind.
  - rewrite (delete_unique _ _ _ _ Hu Hfind). reflexivity.
  - apply find_none_keys in Hfind. rewrite filter_absent by exact Hfind.
    reflexivity.
Qed.

(** The last update of a row wins. *)
Lemma updp_absorb p q t : parses p -> updp p (updp q t) = updp p t.
Proof.
  intros [d Hd]. rewrite !(updp_parsed _ _ _ Hd). unfold updp.
  destruct (strptime_ymd (TxnData.date q)); reflexivity.
Qed.

Lemma updp_touch p q t : parses p -> updp p (touch q t) = updp p t.
Proof.
  intros Hp. unfold touch. case_decide; [apply updp_absorb, Hp | reflexivity].
Qed.

Lemma touch_all_snoc ps p t : touch_all (ps ++ [p]) t = touch p (touch_all ps t).
Proof. unfold touch_all. rewrite foldl_snoc. reflexivity. Qed.

Lemma touch_all_app ps qs t :
  touch_all (ps ++ qs) t = touch_all qs (touch_all ps t).
Proof. unfold touch_all. rewrite foldl_app. reflexivity. Qed.

Lemma touch_all_keeps_id ps t :
  plaid_transaction_id (touch_all ps t) = plaid_transaction_id t.
Proof.
  revert t. induction ps as [|p ps IH]; intros t; [reflexivity|].
  cbn [touch_all foldl]. fold (touch_all ps (touch p t)).
  rewrite IH. apply touch_keeps_id.
Qed.

Lemma updp_touch_all p ps t : parses p -> updp p (touch_all ps t) = updp p t.
Proof.
  intros Hp. revert t. induction ps as [|q ps IH]; intros t; [reflexivity|].
  cbn [touch_all foldl]. fold (touch_all ps (touch q t)).
  rewrite IH. apply updp_touch, Hp.
Qed.

Lemma touch_has p t :
  has_tid (TxnData.transaction_id p) t -> touch p t = updp p t.
Proof. intros Ht. unfold touch. rewrite decide_True by exact Ht. reflexivity. Qed.

Lemma touch_has_not p t :
  ~ has_tid (TxnData.transaction_id p) t -> touch p t = t.
Proof. intros Ht. unfold touch. rewrite decide_False by exact Ht. reflexivity. Qed.

Lemma has_tid_touch_all k ps t : has_tid k (touch_all ps t) <-> has_tid k t.
Proof. unfold has_tid. rewrite touch_all_keeps_id. reflexivity. Qed.

Lemma settled_touch ps p t :
  (has_tid (TxnData.transaction_id p) t -> parses p) ->
  settled ps t -> settled (ps ++ [p]) (touch p t).
Proof.
  intros Hp Hs. unfold settled in *. rewrite touch_all_snoc.
  destruct (decide (has_tid (TxnData.transaction_id p) t)) as [Ht|Ht].
  - specialize (Hp Ht).
    rewrite (touch_has p t Ht).
    rewrite touch_has
      by (apply has_tid_touch_all; unfold has_tid; rewrite updp_keeps_id; exact Ht).
    rewrite updp_touch_all by exact Hp. apply updp_absorb, Hp.
  - rewrite (touch_has_not p t Ht), Hs. apply touch_has_not, Ht.
Qed.

Lemma settled_new ps p t :
  parses p -> has_tid (TxnData.transaction_id p) t -> updp p t = t ->
  settled (ps ++ [p]) t.
Proof.
  intros Hp Ht Hnew. unfold settled. rewrite touch_all_snoc.
  rewrite touch_has by (apply has_tid_touch_all; exact Ht).
  rewrite updp_touch_all by exact Hp. exact Hnew.
Qed.

Lemma inv1_touch ps p l :
  inv1 ps l ->
  (TxnData.transaction_id p ∈ keys l -> parses p) ->
  inv1 (ps ++ [p]) (touch p <$> l).
Proof.
  intros [Hu Hs] Hp. split.
  - unfold unique_ids. rewrite keys_fmap_touch. exact Hu.
  - apply Forall_fmap, Forall_forall. intros t Ht. cbn.
    apply settled_touch.
    + intros Hk. apply Hp, elem_of_keys. exists t. split; assumption.
    + rewrite Forall_forall in Hs. exact (Hs t Ht).
Qed.

Lemma inv1_update ps p l l' :
  inv1 ps l -> update_l p l = Some l' ->
  inv1 (ps ++ [p]) l' /\ keys l' = keys l.
Proof.
  intros Hinv Hl.
  destruct (update_l_touch _ _ _ (proj1 Hinv) Hl) as [-> Hp].
  split; [apply inv1_touch; assumption | apply keys_fmap_touch].
Qed.

Lemma keys_snoc l t k : has_tid k t -> keys (l ++ [t]) = keys l ++ [k].
Proof.
  intros Ht. rewrite keys_app. f_equal. unfold keys. cbn.
  unfold has_tid in Ht. rewrite Ht. reflexivity.
Qed.

Lemma unique_ids_snoc l t k :
  unique_ids l -> has_tid k t -> k ∉ keys l -> unique_ids (l ++ [t]).
Proof.
  intros Hu Ht Hk. unfold unique_ids. rewrite (keys_snoc _ _ _ Ht).
  apply NoDup_app. split; [exact Hu|]. split; [|apply NoDup_singleton].
  intros x Hx ->%list_elem_of_singleton. exact (Hk Hx).
Qed.

Lemma inv1_save a ps p l l' :
  inv1 ps l -> save_l a p l = Some l' ->
  inv1 (ps ++ [p]) l' /\
  (forall k, k ∈ keys l -> k ∈ keys l') /\
  TxnData.transaction_id p ∈ keys l'.
Proof.
  intros Hinv Hl.
  destruct (save_l_cases _ _ _ _ (proj1 Hinv) Hl)
    as [Hp [[Hin ->]|[Hout (t & -> & Ht & Hnew)]]].
  - split; [apply inv1_touch; [exact Hinv | intros _; exact Hp]|].
    rewrite keys_fmap_touch. split; [tauto | exact Hin].
  - destruct Hinv as [Hu Hs]. split; [split|].
    + exact (unique_ids_snoc _ _ _ Hu Ht Hout).
    + apply Forall_app. split.
      * apply Forall_forall. intros t' Ht'.
        assert (~ has_tid (TxnData.transaction_id p) t') as Hno.
        { intros Hk. apply Hout, elem_of_keys. exists t'. split; assumption. }
        rewrite <- (touch_has_not p t' Hno). apply settled_touch.
        -- intros Hk. contradiction.
        -- rewrite Forall_forall in Hs. exact (Hs t' Ht').
      * apply Forall_singleton. exact (settled_new _ _ _ Hp Ht Hnew).
    + rewrite (keys_snoc _ _ _ Ht). split.
      * intros k Hk. apply elem_of_app. left. exact Hk.
      * apply elem_of_app. right. apply list_elem_of_singleton. reflexivity.
Qed.

Lemma inv1_steps_save a qs ps l l' :
  inv1 ps l -> steps (save_l a) qs l = Some l' ->
  inv1 (ps ++ qs) l' /\
  (forall k, k ∈ keys l -> k ∈ keys l') /\
  Forall (fun p => TxnData.transaction_id p ∈ keys l') qs.
Proof.
  revert ps l. induction qs as [|q qs IH]; intros ps l Hinv; cbn [steps].
  - intros [= <-]. rewrite app_nil_r. split; [exact Hinv|]. split; [tauto|].
    apply Forall_nil_2.
  - destruct (save_l a q l) as [l1|] eqn:E; [cbn|discriminate]. intros Hl.
    destruct (inv1_save _ _ _ _ _ Hinv E) as (Hinv1 & Hsub1 & Hq).
    destruct (IH _ _ Hinv1 Hl) as (Hinv' & Hsub & Hall).
    rewrite <- app_assoc in Hinv'. split; [exact Hinv'|].
    split; [intros k Hk; exact (Hsub k (Hsub1 k Hk))|].
    apply Forall_cons. split; [exact (Hsub _ Hq) | exact Hall].
Qed.

Lemma inv1_steps_update qs ps l l' :
  inv1 ps l -> steps update_l qs l = Some l' ->
  inv1 (ps ++ qs) l' /\ keys l' = keys l.
Proof.
  revert ps l. induction qs as [|q qs IH]; intros ps l Hinv; cbn [steps].
  - intros [= <-]. rewrite app_nil_r. split; [exact Hinv | reflexivity].
  - destruct (update_l q l) as [l1|] eqn:E; [cbn|discriminate]. intros Hl.
    destruct (inv1_update _ _ _ _ Hinv E) as (Hinv1 & Hk1).
    destruct (IH _ _ Hinv1 Hl) as (Hinv' & Hk).
    rewrite <- app_assoc in Hinv'. split; [exact Hinv' | congruence].
Qed.

Lemma keys_filter (Q : Transaction -> Prop) `{!forall t, Decision (Q t)} k l :
  k ∈ keys (filter Q l) -> k ∈ keys l.
Proof.
  intros (t & [_ Ht]%list_elem_of_filter & Hk)%elem_of_keys.
  apply elem_of_keys. exists t. split; assumption.
Qed.

Lemma unique_ids_filter (Q : Transaction -> Prop) `{!forall t, Decision (Q t)} l :
  unique_ids l -> unique_ids (filter Q l).
Proof.
  induction l as [|t l IH]; intros Hu; [exact Hu|].
  rewrite filter_cons. specialize (IH (unique_ids_tail _ _ Hu)).
  case_decide; [|exact IH].
  unfold unique_ids in *. rewrite keys_cons in *.
  destruct (plaid_transaction_id t) as [k|]; [|exact IH].
  apply NoDup_cons in Hu as [Hk _]. apply NoDup_cons. split; [|exact IH].
  intros Hin. exact (Hk (keys_filter _ _ _ Hin)).
Qed.

Lemma steps_remove K l : unique_ids l -> steps remove_l K l = Some (purge K l).
Proof.
  revert l. induction K as [|k K IH]; intros l Hu; cbn [steps].
  - f_equal. unfold purge. symmetry.
    induction l as [|t l IHl]; [reflexivity|].
    rewrite filter_cons_True by apply Forall_nil_2.
    f_equal. exact (IHl (unique_ids_tail _ _ Hu)).
  - rewrite (remove_l_filter _ _ Hu). cbn.
    rewrite IH by (apply unique_ids_filter; exact Hu).
    f_equal. unfold purge. rewrite list_filter_filter.
    apply list_filter_iff. intros t. unfold live. rewrite Forall_cons. tauto.
Qed.

Lemma live_keeps (f : Transaction -> Transaction) K t :
  plaid_transaction_id (f t) = plaid_transaction_id t ->
  live K (f t) <-> live K t.
Proof. intros Hf. unfold live, has_tid. rewrite Hf. reflexivity. Qed.

Lemma purge_key_cases K k l :
  k ∈ keys l -> k ∈ keys (purge K l) \/ k ∈ K.
Proof.
  intros (t & Ht & Hk)%elem_of_keys.
  destruct (decide (live K t)) as [Hlive|Hdead].
  - left. apply elem_of_keys. exists t.
    split; [apply list_elem_of_filter; split; assumption | exact Hk].
  - right. apply not_Forall_Exists in Hdead; [|apply _].
    apply Exists_exists in Hdead as (k' & Hk' & Hhas). cbn in Hhas.
    apply dec_stable in Hhas. unfold has_tid in *.
    assert (k' = k) as <- by congruence. exact Hk'.
Qed.

Lemma purge_dead K l : Forall (fun t => ~ live K t) l -> purge K l = [].
Proof.
  unfold purge. induction 1 as [|t l Ht _ IH]; [reflexivity|].
  rewrite filter_cons_False by exact Ht. exact IH.
Qed.

Lemma purge_live K l : Forall (live K) l -> purge K l = l.
Proof.
  unfold purge. induction 1 as [|t l Ht _ IH]; [reflexivity|].
  rewrite filter_cons_True by exact Ht. f_equal. exact IH.
Qed.

Lemma inv2_touch K ps p s x :
  inv2 K ps s x -> inv2 K (ps ++ [p]) s (touch p <$> x).
Proof.
  intros [Hu (j & -> & Hj)]. split.
  - unfold unique_ids. rewrite keys_fmap_touch. exact Hu.
  - exists (touch p <$> j). split.
    + rewrite fmap_app, <- list_fmap_compose. f_equal.
      apply list_fmap_ext. intros _ t _. cbn. symmetry. apply touch_all_snoc.
    + apply Forall_fmap. eapply Forall_impl; [exact Hj|].
      intros t Ht. cbn. rewrite (live_keeps (touch p)); [exact Ht|].
      apply touch_keeps_id.
Qed.

Lemma inv2_update K ps p s x x' :
  inv2 K ps s x -> update_l p x = Some x' -> inv2 K (ps ++ [p]) s x'.
Proof.
  intros Hinv Hx.
  destruct (update_l_touch _ _ _ (proj1 Hinv) Hx) as [-> _].
  apply inv2_touch, Hinv.
Qed.

Lemma inv2_save a K ps p s x x' :
  inv2 K ps s x ->
  TxnData.transaction_id p ∈ keys s \/ TxnData.transaction_id p ∈ K ->
  save_l a p x = Some x' ->
  inv2 K (ps ++ [p]) s x'.
Proof.
  intros Hinv Hp Hx.
  destruct (save_l_cases _ _ _ _ (proj1 Hinv) Hx)
    as [_ [[_ ->]|[Hout (t & -> & Ht & _)]]].
  - apply inv2_touch, Hinv.
  - destruct Hinv as [Hu (j & -> & Hj)].
    assert (TxnData.transaction_id p ∉ keys (touch_all ps <$> s)) as Hs.
    { intros Hin. apply Hout. rewrite keys_app. apply elem_of_app. left.
      exact Hin. }
    assert (TxnData.transaction_id p ∈ K) as HK.
    { destruct Hp as [Hin|HK]; [|exact HK]. exfalso. apply Hs.
      rewrite keys_fmap_keeps by apply touch_all_keeps_id. exact Hin. }
    split; [exact (unique_ids_snoc _ _ _ Hu Ht Hout)|].
    exists (j ++ [t]). split.
    + rewrite app_assoc. f_equal. f_equal.
      rewrite <- (touch_absent p (touch_all ps <$> s) Hs) at 1.
      rewrite <- list_fmap_compose.
      apply list_fmap_ext. intros _ t' _. cbn. symmetry. apply touch_all_snoc.
    + apply Forall_app. split; [exact Hj|]. apply Forall_singleton.
      unfold live. rewrite Forall_forall. intros Hall.
      exact (Hall _ HK Ht).
Qed.

Lemma inv2_steps_save a K qs ps s x x' :
  inv2 K ps s x ->
  Forall (fun p => TxnData.transaction_id p ∈ keys s
                   \/ TxnData.transaction_id p ∈ K) qs ->
  steps (save_l a) qs x = Some x' ->
  inv2 K (ps ++ qs) s x'.
Proof.
  revert ps x. induction qs as [|q qs IH]; intros ps x Hinv Hqs; cbn [steps].
  - intros [= <-]. rewrite app_nil_r. exact Hinv.
  - apply Forall_cons in Hqs as [Hq Hqs].
    destruct (save_l a q x) as [x1|] eqn:E; [cbn|discriminate]. intros Hx.
    pose proof (IH _ _ (inv2_save _ _ _ _ _ _ _ Hinv Hq E) Hqs Hx) as Hinv'.
    rewrite <- app_assoc in Hinv'. exact Hinv'.
Qed.

Lemma inv2_steps_update K qs ps s x x' :
  inv2 K ps s x ->
  steps update_l qs x = Some x' ->
  inv2 K (ps ++ qs) s x'.
Proof.
  revert ps x. induction qs as [|q qs IH]; intros ps x Hinv; cbn [steps].
  - intros [= <-]. rewrite app_nil_r. exact Hinv.
  - destruct (update_l q x) as [x1|] eqn:E; [cbn|discriminate]. intros Hx.
    pose proof (IH _ _ (inv2_update _ _ _ _ _ _ Hinv E) Hx) as Hinv'.
    rewrite <- app_assoc in Hinv'. exact Hinv'.
Qed.

Lemma inv2_purge K ps s x :
  inv2 K ps s x -> Forall (settled ps) s -> Forall (live K) s ->
  purge K x = s.
Proof.
  intros [_ (j & -> & Hj)] Hs Hlive.
  assert (touch_all ps <$> s = s) as ->.
  { rewrite <- (list_fmap_id s) at 2. apply list_fmap_ext.
    intros i t Ht. rewrite Forall_forall in Hs.
    exact (Hs t (list_elem_of_lookup_2 _ _ _ Ht)). }
  unfold purge. rewrite filter_app.
  fold (purge K s). fold (purge K j).
  rewrite (purge_dead _ _ Hj), (purge_live _ _ Hlive). apply app_nil_r.
Qed.

(** On the rows alone: a second application that returns changes
    nothing. *)
Lemma apply_l_twice a r l l1 l2 :
  unique_ids l ->
  apply_l a r l = Some l1 ->
  apply_l a r l1 = Some l2 ->
  l2 = l1.
Proof.
  intros Hu. unfold apply_l.
  destruct (steps (save_l a) (added r) l) as [x1|] eqn:Ea; [cbn|discriminate].
  destruct (steps update_l (modified r) x1) as [t|] eqn:Em; [cbn|discriminate].
  intros Hr.
  destruct (steps (save_l a) (added r) l1) as [y1|] eqn:Ea2; [cbn|discriminate].
  destruct (steps update_l (modified r) y1) as [y2|] eqn:Em2; [cbn|discriminate].
  intros Hr2.
  (* first application *)
  assert (inv1 [] l) as Hinv0.
  { split; [exact Hu|]. apply Forall_forall. intros ? _. reflexivity. }
  destruct (inv1_steps_save _ _ _ _ _ Hinv0 Ea) as (Hinv_a & _ & Hadded).
  destruct (inv1_steps_update _ _ _ _ Hinv_a Em) as ([Hut Hst] & Hkeys).
  cbn [app] in Hst.
  rewrite (steps_remove _ _ Hut) in Hr. injection Hr as <-.
  (* second application *)
  assert (inv2 (removed r) [] (purge (removed r) t) (purge (removed r) t))
    as Hinv2.
  { split; [apply unique_ids_filter; exact Hut|]. exists [].
    split; [|apply Forall_nil_2]. rewrite app_nil_r.
    rewrite <- (list_fmap_id (purge _ t)) at 1.
    apply list_fmap_ext. intros; reflexivity. }
  assert (Forall (fun p => TxnData.transaction_id p ∈ keys (purge (removed r) t)
                           \/ TxnData.transaction_id p ∈ removed r) (added r))
    as Hcases.
  { eapply Forall_impl; [exact Hadded|]. intros p Hp. cbn in Hp.
    apply purge_key_cases. rewrite Hkeys. exact Hp. }
  pose proof (inv2_steps_save _ _ _ _ _ _ _ Hinv2 Hcases Ea2) as Hinv2a.
  pose proof (inv2_steps_update _ _ _ _ _ _ Hinv2a Em2) as Hinv2m.
  cbn [app] in Hinv2m.
  rewrite (steps_remove _ _ (proj1 Hinv2m)) in Hr2. injection Hr2 as <-.
  apply (inv2_purge _ _ _ _ Hinv2m).
  - apply Forall_forall. intros t' [_ Ht']%list_elem_of_filter.
    rewrite Forall_forall in Hst. exact (Hst t' Ht').
  - apply Forall_forall. intros t' [Hlive _]%list_elem_of_filter. exact Hlive.
Qed.

(** In the worlds of the service: whenever both applications return. *)
Lemma second_application_changes_nothing a r w c1 w1 c2 w2 :
  unique_ids (txns w) ->
  apply_sync_result a r w = (Ok c1, w1) ->
  apply_sync_result a r w1 = (Ok c2, w2) ->
  w2 = w1 /\ c2 = c1.
Proof.
  intros Hu E1 E2.
  destruct (runs_ok _ _ _ _ _ _ (apply_runs a r) E1) as (l1 & Hl1 & -> & ->).
  destruct (runs_ok _ _ _ _ _ _ (apply_runs a r) E2) as (l2 & Hl2 & -> & ->).
  rewrite txns_with_txns in Hl2.
  rewrite (apply_l_twice _ _ _ _ _ Hu Hl1 Hl2).
  split; reflexivity.
Qed.


End SyncFacts.
End SyncFacts.

(** * The properties on the sample data *)
Module Examples.
Import Fixtures.
#[local] Existing Instances fernet_double hash_double jose_double date_double plaid_double.

(** ** Webhooks *)

(** The token issued at second 1000 carries the digest of the body; at
    second 2000 it is 1000 seconds old, and the answer is the generic
    error. *)
Lemma stale_webhook_sample :
  Webhook.verify_plaid_webhook (signed_by "token.iat-1000") webhook_body 2000
    = Raise (HTTPException Webhook.HTTP_500_INTERNAL_SERVER_ERROR
               "Webhook verification error") /\
  forall age,
    Webhook.verify_plaid_webhook (signed_by "token.iat-1000") webhook_body 2000
      <> Raise (HTTPException Webhook.HTTP_401_UNAUTHORIZED
                  (Webhook.too_old_msg age)).
Proof.
  apply (WebhookFacts.stale_webhook_is_server_error _ _ _ "token.iat-1000").
  - intros token. reflexivity.
  - reflexivity.
  - reflexivity.
Defined.

Lemma stale_token_claims :
  jwt_decode "token.iat-1000" (Some "key")
    = Ok {[ "request_body_sha256" := JStr (sha256_hexdigest webhook_body);
            "iat" := JInt 1000 ]} /\
  Webhook.MAX_WEBHOOK_AGE < 2000 - 1000.
Proof. split; vm_compute; reflexivity. Qed.

(** A token without issued-at claim, with the digest of the body: not
    accepted. *)
Lemma missing_iat_sample :
  is_ok (Webhook.verify_plaid_webhook (signed_by "token.no-iat") webhook_body 2000)
    = false.
Proof.
  apply (WebhookFacts.no_webhook_is_accepted (signed_by "token.no-iat")
           webhook_body 2000).
  intros token. reflexivity.
Defined.

Lemma missing_iat_token_claims :
  jwt_decode "token.no-iat" (Some "key")
    = Ok {[ "request_body_sha256" := JStr (sha256_hexdigest webhook_body) ]} /\
  Webhook.verify_plaid_webhook (signed_by "token.no-iat") webhook_body 2000
    = Raise (HTTPException 500 "Webhook verification error").
Proof. split; vm_compute; reflexivity. Qed.

(** An unsupported algorithm raises the class that a signature the
    comparison cannot handle raises as well. *)
Lemma md5_is_verification_error :
  Webhook.verify_hmac_signature "{}" "abc" "secret" "md5"
    = Raise (WebhookVerificationError
               "Failed to verify signature: Unsupported algorithm: md5") /\
  Webhook.verify_hmac_signature "{}" (String (ascii_of_nat 233) "") "secret" "sha256"
    = Raise (WebhookVerificationError
               "Failed to verify signature: comparing strings with non-ASCII characters is not supported").
Proof. split; vm_compute; reflexivity. Qed.

Lemma unsupported_algorithm_sample :
  Webhook.verify_hmac_signature "{}" "abc" "secret" "sha1"
    = Raise (WebhookVerificationError
               "Failed to verify signature: Unsupported algorithm: sha1").
Proof.
  apply (WebhookFacts.unsupported_algorithm_raises "{}" "abc" "secret" "sha1");
    discriminate.
Defined.

(** ** The vault *)

(** A key that is no Fernet key: startup succeeds, the first encryption
    raises. *)
Lemma bad_key_survives_startup :
  Fernet (Vault.prepared_key "not-a-fernet-key") = None /\
  Vault.startup (Some "not-a-fernet-key")
    = Ok (Vault.mkState "not-a-fernet-key" None) /\
  (Vault.encrypt "iv-1" access_token (Vault.mkState "not-a-fernet-key" None)).1
    = Raise (ValueError Vault.invalid_key_msg).
Proof. repeat split; vm_compute; reflexivity. Qed.

Lemma invalid_key_sample :
  Vault.startup (Some "bad") = Ok (Vault.mkState "bad" None) /\
  Vault.encrypt "iv-1" access_token (Vault.mkState "bad" None)
    = (Raise (ValueError Vault.invalid_key_msg), Vault.mkState "bad" None) /\
  Vault.decrypt access_token (Vault.mkState "bad" None)
    = (Raise (ValueError Vault.invalid_key_msg), Vault.mkState "bad" None).
Proof.
  apply (VaultFacts.invalid_key_fails_on_first_use "bad" "iv-1");
    vm_compute; reflexivity.
Defined.

(** ** Synchronisation *)

(** A corrupted token: the run raises, and nothing but the vault's cache
    has changed. *)
Lemma corrupted_token_sample :
  Sync.sync_account_transactions 1000 "acct-1" world_corrupted
    = (Raise (ValueError Vault.invalid_token_msg),
       Sync.mkWorld (Sync.persisted world_corrupted)
         (Sync.session world_corrupted) warm_vault
         (Sync.plaid_calls world_corrupted)).
Proof.
  apply (SyncFacts.decrypt_failure_aborts 1000 "acct-1" world_corrupted
           0%nat (account "gAAAAAcorrupted" true));
    vm_compute; reflexivity.
Defined.

(** An account id that does not exist: the first execution asks for a
    retry in 300 seconds. *)
Lemma unknown_account_is_retried :
  (Sync.task_sync_account_transactions 0 1000 "no-such-account" world_active).1
    = Sync.Retrying (ValueError "Account no-such-account not found") 300.
Proof. vm_compute. reflexivity. Qed.

Lemma every_failure_retried_sample :
  (Sync.task_sync_account_transactions 3 1000 "acct-1" world_corrupted).1
    = Sync.Failed (ValueError Vault.invalid_token_msg) /\
  Sync.persisted
    (Sync.task_sync_account_transactions 3 1000 "acct-1" world_corrupted).2
    = Sync.persisted world_corrupted /\
  forall fuel,
    (length (Sync.executions fuel 0 1000 "acct-1" world_corrupted).1 <= 4)%nat.
Proof.
  apply (SyncFacts.every_failure_retried 3 1000 "acct-1" world_corrupted
           (ValueError Vault.invalid_token_msg)
           (Sync.mkWorld (Sync.persisted world_corrupted)
              (Sync.persisted world_corrupted) warm_vault [])).
  vm_compute. reflexivity.
Defined.

(** The first page announces more and a second page is waiting; the run
    makes one request, commits and ends. *)
Lemma has_more_is_not_followed :
  BankAccount.plaid_cursor <$> Sync.bank_accounts (Sync.persisted world_with_row)
    = [Some "c0"] /\
  transactions_sync [] access_token (Some "c0") = Ok page1 /\
  SyncResponse.has_more page1 = Some true /\
  transactions_sync [(access_token, Some "c0")] access_token (Some "c1")
    = Ok page2 /\
  (Sync.sync_account_transactions 1000 "acct-1" world_with_row).1
    = Ok (Sync.mkSyncCounts 0 0 1) /\
  Sync.plaid_calls (Sync.sync_account_transactions 1000 "acct-1" world_with_row).2
    = [(access_token, Some "c0")] /\
  BankAccount.plaid_cursor <$>
    Sync.bank_accounts
      (Sync.persisted (Sync.sync_account_transactions 1000 "acct-1" world_with_row).2)
    = [Some "c1"].
Proof. repeat split; reflexivity. Qed.

Lemma one_request_sample :
  (Sync.plaid_calls (Sync.sync_account_transactions 1000 "acct-1" world_with_row).2
     = Sync.plaid_calls world_with_row \/
   exists i a token v cursor,
     Sync.find_account "acct-1" (Sync.session world_with_row) = Some (i, a) /\
     Vault.decrypt (BankAccount.plaid_access_token a) (Sync.vault world_with_row)
       = (Ok token, v) /\
     BankAccount.plaid_cursor a = Some cursor /\
     Sync.plaid_calls (Sync.sync_account_transactions 1000 "acct-1" world_with_row).2
       = Sync.plaid_calls world_with_row ++ [(token, Some cursor)]) /\
  (forall e,
     (Sync.sync_account_transactions 1000 "acct-1" world_with_row).1 = Raise e ->
     Sync.persisted (Sync.sync_account_transactions 1000 "acct-1" world_with_row).2
       = Sync.persisted world_with_row) /\
  (forall counts,
     (Sync.sync_account_transactions 1000 "acct-1" world_with_row).1 = Ok counts ->
     exists i a token v cursor resp,
       Sync.find_account "acct-1" (Sync.session world_with_row) = Some (i, a) /\
       Vault.decrypt (BankAccount.plaid_access_token a) (Sync.vault world_with_row)
         = (Ok token, v) /\
       BankAccount.plaid_cursor a = Some cursor /\
       transactions_sync (Sync.plaid_calls world_with_row) token (Some cursor)
         = Ok resp /\
       Sync.plaid_calls
         (Sync.sync_account_transactions 1000 "acct-1" world_with_row).2
         = Sync.plaid_calls world_with_row ++ [(token, Some cursor)] /\
       counts = SyncSpec.counts_of (SyncSpec.result_of resp) /\
       SyncSpec.apply_l a (SyncSpec.result_of resp) (SyncSpec.txns world_with_row)
         = Some (Sync.transactions
                   (Sync.persisted
                      (Sync.sync_account_transactions 1000 "acct-1"
                         world_with_row).2)) /\
       Sync.bank_accounts
         (Sync.persisted
            (Sync.sync_account_transactions 1000 "acct-1" world_with_row).2)
         = alter (Sync.mark_synced (SyncResponse.next_cursor resp) 1000) i
             (Sync.bank_accounts (Sync.session world_with_row)) /\
       Sync.session (Sync.sync_account_transactions 1000 "acct-1" world_with_row).2
         = Sync.persisted
             (Sync.sync_account_transactions 1000 "acct-1" world_with_row).2).
Proof.
  apply (SyncFacts.one_request_per_run 1000 "acct-1" world_with_row).
  apply surjective_pairing.
Defined.

(** A negative provider amount is stored without its sign. *)
Lemma negative_amount_loses_sign :
  TxnData.amount (txn "t1" (-1250)) = -1250 /\
  (Sync._save_transaction (account stored_token true) (txn "t1" (-1250))
     world_active).1 = Ok tt /\
  Sync.amount <$>
    SyncSpec.txns
      (Sync._save_transaction (account stored_token true) (txn "t1" (-1250))
         world_active).2
    = [1250].
Proof. repeat split; vm_compute; reflexivity. Qed.

Lemma stored_amount_sample :
  exists t,
    SyncSpec.stored (txn "t1" (-1250))
      (Sync._save_transaction (account stored_token true) (txn "t1" (-1250))
         world_active).2 = Some t /\
    Sync.amount t = Z.abs (TxnData.amount (txn "t1" (-1250))).
Proof.
  apply (SyncFacts.stored_amount_is_absolute (account stored_token true)
           (txn "t1" (-1250)) world_active).
  left. vm_compute. reflexivity.
Defined.

(** An inactive account with a stored cursor and a stored transaction: the
    run calls the aggregator, deletes the transaction and commits the new
    cursor. *)
Lemma inactive_account_run :
  BankAccount.is_active <$>
    Sync.bank_accounts (Sync.persisted world_inactive_with_row) = [false] /\
  BankAccount.plaid_cursor <$>
    Sync.bank_accounts (Sync.persisted world_inactive_with_row) = [Some "c0"] /\
  Sync.plaid_transaction_id <$>
    Sync.transactions (Sync.persisted world_inactive_with_row) = [Some "t0"] /\
  (Sync.sync_account_transactions 1000 "acct-1" world_inactive_with_row).1
    = Ok (Sync.mkSyncCounts 0 0 1) /\
  Sync.plaid_calls
    (Sync.sync_account_transactions 1000 "acct-1" world_inactive_with_row).2
    = [(access_token, Some "c0")] /\
  BankAccount.plaid_cursor <$>
    Sync.bank_accounts
      (Sync.persisted
         (Sync.sync_account_transactions 1000 "acct-1" world_inactive_with_row).2)
    = [Some "c1"] /\
  Sync.transactions
    (Sync.persisted
       (Sync.sync_account_transactions 1000 "acct-1" world_inactive_with_row).2)
    = [].
Proof. repeat split; reflexivity. Qed.

Lemma inactive_account_sample :
  exists w',
    Sync.sync_account_transactions 1000 "acct-1" world_inactive_with_row
      = (Ok (SyncSpec.counts_of (SyncSpec.result_of page1)), w') /\
    Sync.plaid_calls w'
      = Sync.plaid_calls world_inactive_with_row ++ [(access_token, Some "c0")] /\
    SyncSpec.apply_l (account stored_token false) (SyncSpec.result_of page1)
      (SyncSpec.txns world_inactive_with_row)
      = Some (Sync.transactions (Sync.persisted w')) /\
    Sync.bank_accounts (Sync.persisted w') !! 0%nat
      = Some (Sync.mark_synced (Some "c1") 1000 (account stored_token false)) /\
    BankAccount.is_active
      (Sync.mark_synced (Some "c1") 1000 (account stored_token false)) = false.
Proof.
  apply (SyncFacts.inactive_account_is_synced 1000 "acct-1"
           world_inactive_with_row 0%nat (account stored_token false)
           access_token warm_vault "c0" page1);
    first [reflexivity | constructor].
Defined.


End Examples.

(** * Further properties of the verifiers *)
Module WebhookMore.
Section WebhookMore.
Context {H : HashLib} {J : JoseLib}.
Import Webhook.


(** X2: Whatever goes wrong, the caller sees an HTTP error with status 401 or
    the fixed status-500 error: no other exception leaves the verifier. *)
Theorem verifier_raises_only_http_errors headers body now e :
  verify_plaid_webhook headers body now = Raise e ->
  (exists detail, e = HTTPException HTTP_401_UNAUTHORIZED detail) \/
  e = HTTPException HTTP_500_INTERNAL_SERVER_ERROR "Webhook verification error".
Proof.
  unfold verify_plaid_webhook.
  destruct (headers !! "Plaid-Verification") as [signature|];
    [|intros [= <-]; left; eauto].
  destruct (str_truthy signature); cbn [negb]; [|intros [= <-]; left; eauto].
  destruct (verify_claims signature body now) as [[]|[]];
    try discriminate; intros [= <-]; eauto.
Qed.

(** X7: The HMAC verifier answers [True] exactly when the algorithm is one of
    the two supported ones and the ASCII signature is the digest that
    algorithm gives for the secret and the body. *)
Theorem hmac_true_iff_digest body signature secret algorithm :
  verify_hmac_signature body signature secret algorithm = Ok true <->
  is_ascii signature = true /\
  ((algorithm = "sha256" /\ signature = hmac_sha256_hexdigest secret body) \/
   (algorithm = "sha512" /\ signature = hmac_sha512_hexdigest secret body)).
Proof.
  assert (forall expected,
            match compare_digest signature expected with
            | Ok b => Ok b
            | Raise e =>
                Raise (WebhookVerificationError
                         ("Failed to verify signature: " +:+ str_exn e))
            end = Ok true <->
            is_ascii signature = true /\ signature = expected) as Hcmp.
  { intros expected. unfold compare_digest.
    destruct (is_ascii signature) eqn:Ha; cbn [andb].
    - destruct (is_ascii expected) eqn:Hb.
      + case_bool_decide as Heq; split; try discriminate; try tauto.
      + split; [discriminate|]. intros [_ ->]. congruence.
    - split; [discriminate|]. intros [? _]. discriminate. }
  unfold verify_hmac_signature.
  destruct (decide (algorithm = "sha256")) as [->|H256].
  - rewrite bool_decide_eq_true_2 by reflexivity. rewrite Hcmp.
    split; [intros [? ?]; split; [assumption|left; split; [reflexivity|assumption]]|].
    intros [? [[_ ?]|[? _]]]; [split; assumption|discriminate].
  - rewrite bool_decide_eq_false_2 by assumption.
    destruct (decide (algorithm = "sha512")) as [->|H512].
    + rewrite bool_decide_eq_true_2 by reflexivity. rewrite Hcmp.
      split; [intros [? ?]; split; [assumption|right; split; [reflexivity|assumption]]|].
      intros [? [[? _]|[_ ?]]]; [discriminate|split; assumption].
    + rewrite bool_decide_eq_false_2 by assumption.
      split; [discriminate|]. intros [_ [[? _]|[? _]]]; contradiction.
Qed.

End WebhookMore.
End WebhookMore.

(** * Further properties of the vault *)
Module VaultMore.
Section VaultMore.
Context {L : FernetLib}.
Import Vault.

Lemma get_fernet_valid key f :
  Fernet (prepared_key key) = Some f ->
  _get_fernet (mkState key None) = (Ok f, mkState key (Some f)).
Proof.
  unfold _get_fernet. cbn [_fernet ENCRYPTION_KEY]. intros ->. reflexivity.
Qed.

Lemma get_fernet_cached st f st' :
  _get_fernet st = (Ok f, st') -> _fernet st' = Some f.
Proof.
  unfold _get_fernet. destruct (_fernet st) as [f0|] eqn:Hc.
  - intros [= <- <-]. exact Hc.
  - destruct (Fernet _); [|discriminate]. intros [= <- <-]. reflexivity.
Qed.

(** X8: Round trip: with a key the constructor accepts, what [encrypt] returns
    for a string [decrypt] turns back into that string, the empty string
    included, provided the library decrypts its own token and never issues
    an empty one. *)
Theorem encrypt_then_decrypt key f iv s :
  Fernet (prepared_key key) = Some f ->
  fernet_decrypt f (fernet_encrypt f iv s) = Ok s ->
  str_truthy (fernet_encrypt f iv s) = true ->
  exists c st1,
    encrypt iv s (mkState key None) = (Ok c, st1) /\
    decrypt c st1 = (Ok s, st1).
Proof.
  intros Hkey Hlaw Hnonempty. unfold encrypt, decrypt.
  destruct (str_truthy s) eqn:Hs; cbn [negb].
  - rewrite (get_fernet_valid _ _ Hkey).
    exists (fernet_encrypt f iv s), (mkState key (Some f)).
    split; [reflexivity|]. rewrite Hnonempty. cbn [negb].
    unfold _get_fernet. cbn [_fernet]. rewrite Hlaw. reflexivity.
  - exists s, (mkState key None). split; [reflexivity|].
    rewrite Hs. reflexivity.
Qed.

(** X9: [decrypt] never hands back anything but the empty string it was given
    or what the library decrypted from the ciphertext under the cached
    key: in particular never the ciphertext itself on failure. *)
Theorem decrypt_returns_only_decrypted ciphertext st p st' :
  decrypt ciphertext st = (Ok p, st') ->
  (ciphertext = "" /\ p = "") \/
  exists f, _fernet st' = Some f /\ fernet_decrypt f ciphertext = Ok p.
Proof.
  unfold decrypt. destruct (str_truthy ciphertext) eqn:Hc; cbn [negb].
  - destruct (_get_fernet st) as [[f|e] st1] eqn:Hf; [|discriminate].
    destruct (fernet_decrypt f ciphertext) as [q|e] eqn:Hd;
      [|destruct e; discriminate].
    intros [= <- <-]. right. exists f.
    split; [exact (get_fernet_cached _ _ _ Hf) | exact Hd].
  - intros [= <- <-]. left. destruct ciphertext; [split; reflexivity|discriminate].
Qed.

(** X10: The column type: a value bound into the database and read back is the
    value, [None] staying [None]. *)
Theorem column_round_trip key f iv value :
  Fernet (prepared_key key) = Some f ->
  (forall v, value = Some v ->
     fernet_decrypt f (fernet_encrypt f iv v) = Ok v /\
     str_truthy (fernet_encrypt f iv v) = true) ->
  exists stored st1,
    Columns.process_bind_param iv value (mkState key None) = (Ok stored, st1) /\
    Columns.process_result_value stored st1 = (Ok value, st1).
Proof.
  intros Hkey Hlaw. destruct value as [v|].
  - destruct (Hlaw v eq_refl) as [Hdec Hne].
    unfold Columns.process_bind_param, Columns.process_result_value,
      encrypt, decrypt.
    destruct (str_truthy v) eqn:Hv; cbn [negb].
    + rewrite (get_fernet_valid _ _ Hkey).
      exists (Some (fernet_encrypt f iv v)), (mkState key (Some f)).
      split; [reflexivity|]. rewrite Hne. cbn [negb].
      unfold _get_fernet. cbn [_fernet]. rewrite Hdec. reflexivity.
    + exists (Some v), (mkState key None). split; [reflexivity|].
      rewrite Hv. reflexivity.
  - exists None, (mkState key None). split; reflexivity.
Qed.

End VaultMore.
End VaultMore.

(** * Further properties of reconciliation and of a run *)
Module SyncMore.
Section SyncMore.
Context {L : FernetLib} {D : DateLib} {P : PlaidApi}.
Import Sync SyncSpec SyncSpecMore SyncFacts.

Lemma manual_alter k (f : Transaction -> Transaction) l i t :
  (forall x, plaid_transaction_id (f x) = plaid_transaction_id x) ->
  list_find (has_tid k) l = Some (i, t) ->
  manual_rows (alter f i l) = manual_rows l.
Proof.
  intros Hf. revert i. unfold manual_rows.
  induction l as [|r l IH]; intros i; [discriminate|].
  cbn [list_find]. case_decide as Hr.
  - intros [= <- <-]. cbn [alter list_alter].
    rewrite !filter_cons_False; [reflexivity| |];
      unfold has_tid in Hr; rewrite ?Hf; congruence.
  - destruct (list_find (has_tid k) l) as [[i' t']|] eqn:E; [|discriminate].
    intros [= <- <-]. cbn [alter list_alter].
    rewrite !filter_cons, (IH i' eq_refl). reflexivity.
Qed.

Lemma manual_delete k l i t :
  list_find (has_tid k) l = Some (i, t) ->
  manual_rows (delete i l) = manual_rows l.
Proof.
  revert i. unfold manual_rows.
  induction l as [|r l IH]; intros i; [discriminate|].
  cbn [list_find]. case_decide as Hr.
  - intros [= <- <-]. cbn [delete list_delete].
    rewrite filter_cons_False; [reflexivity|].
    unfold has_tid in Hr. congruence.
  - destruct (list_find (has_tid k) l) as [[i' t']|] eqn:E; [|discriminate].
    intros [= <- <-]. cbn [delete list_delete].
    rewrite !filter_cons. case_decide; [f_equal|]; exact (IH i' eq_refl).
Qed.

Lemma manual_update_l p l l' :
  update_l p l = Some l' -> manual_rows l' = manual_rows l.
Proof.
  unfold update_l. destruct (list_find _ l) as [[i t]|] eqn:Hfind.
  - destruct (strptime_ymd _) as [d|]; [|discriminate]. intros [= <-].
    exact (manual_alter _ _ _ _ _ (upd_keeps_id p d) Hfind).
  - intros [= <-]. reflexivity.
Qed.

Lemma manual_save_l a p l l' :
  save_l a p l = Some l' -> manual_rows l' = manual_rows l.
Proof.
  unfold save_l. destruct (list_find _ l) as [[i t]|] eqn:Hfind.
  - apply manual_update_l.
  - destruct (strptime_ymd _) as [d|]; [|discriminate].
    destruct (parse_authorized p) as [ad|]; [|discriminate].
    intros [= <-]. unfold manual_rows. rewrite filter_app.
    rewrite (filter_cons_False _ (created a p d ad)) by discriminate.
    rewrite filter_nil. apply app_nil_r.
Qed.

Lemma manual_remove_l k l l' :
  remove_l k l = Some l' -> manual_rows l' = manual_rows l.
Proof.
  unfold remove_l. destruct (list_find _ l) as [[i t]|] eqn:Hfind;
    intros [= <-]; [exact (manual_delete _ _ _ _ Hfind) | reflexivity].
Qed.

Lemma manual_steps {A} (f : A -> list Transaction -> option (list Transaction))
  xs l l' :
  (forall x l l', f x l = Some l' -> manual_rows l' = manual_rows l) ->
  steps f xs l = Some l' -> manual_rows l' = manual_rows l.
Proof.
  intros Hf. revert l. induction xs as [|x xs IH]; intros l; cbn [steps].
  - intros [= <-]. reflexivity.
  - destruct (f x l) as [l1|] eqn:E; [cbn|discriminate]. intros Hl.
    rewrite (IH _ Hl). exact (Hf _ _ _ E).
Qed.

(** X11: A reconciliation that returns has left the rows without external id as
    they were, each one and their order: the three loops only ever reach
    rows through an external id. *)
Theorem manual_rows_untouched a r w counts w' :
  apply_sync_result a r w = (Ok counts, w') ->
  manual_rows (txns w') = manual_rows (txns w).
Proof.
  intros E.
  destruct (runs_ok _ _ _ _ _ _ (apply_runs a r) E) as (l' & Hl & -> & _).
  rewrite txns_with_txns. unfold apply_l in Hl.
  destruct (steps (save_l a) (added r) (txns w)) as [l1|] eqn:Ea;
    [cbn in Hl|discriminate].
  destruct (steps update_l (modified r) l1) as [l2|] eqn:Em;
    [cbn in Hl|discriminate].
  rewrite (manual_steps _ _ _ _ manual_remove_l Hl).
  rewrite (manual_steps _ _ _ _ manual_update_l Em).
  exact (manual_steps _ _ _ _ (manual_save_l a) Ea).
Qed.

(** The shape of the rows after a page: the rows left by the additions and
    modifications, which hold every added id, less the removed ids. *)
Lemma apply_l_shape a r l l' :
  unique_ids l -> apply_l a r l = Some l' ->
  exists t, unique_ids t /\
            Forall (fun p => TxnData.transaction_id p ∈ keys t) (added r) /\
            l' = purge (removed r) t.
Proof.
  intros Hu. unfold apply_l.
  destruct (steps (save_l a) (added r) l) as [x1|] eqn:Ea; [cbn|discriminate].
  destruct (steps update_l (modified r) x1) as [t|] eqn:Em; [cbn|discriminate].
  intros Hr.
  assert (inv1 [] l) as Hinv0.
  { split; [exact Hu|]. apply Forall_forall. intros ? _. reflexivity. }
  destruct (inv1_steps_save _ _ _ _ _ Hinv0 Ea) as (Hinv_a & _ & Hadded).
  destruct (inv1_steps_update _ _ _ _ Hinv_a Em) as ([Hut _] & Hkeys).
  rewrite (steps_remove _ _ Hut) in Hr. injection Hr as <-.
  exists t. split; [exact Hut|]. split; [|reflexivity].
  rewrite Hkeys. exact Hadded.
Qed.

(** X12: Reconciliation keeps the unique constraint: from a table with unique
    external ids it never produces two rows with one id. *)
Theorem unique_ids_preserved a r w counts w' :
  unique_ids (txns w) ->
  apply_sync_result a r w = (Ok counts, w') ->
  unique_ids (txns w').
Proof.
  intros Hu E.
  destruct (runs_ok _ _ _ _ _ _ (apply_runs a r) E) as (l' & Hl & -> & _).
  rewrite txns_with_txns.
  destruct (apply_l_shape _ _ _ _ Hu Hl) as (t & Hut & _ & ->).
  apply unique_ids_filter, Hut.
Qed.

(** X13: After a page has been reconciled no removed id is stored, and every
    added id that the page does not also remove is. *)
Theorem removed_gone_added_stored a r w counts w' :
  unique_ids (txns w) ->
  apply_sync_result a r w = (Ok counts, w') ->
  (forall k, k ∈ removed r -> k ∉ keys (txns w')) /\
  (forall p, p ∈ added r -> TxnData.transaction_id p ∉ removed r ->
             TxnData.transaction_id p ∈ keys (txns w')).
Proof.
  intros Hu E.
  destruct (runs_ok _ _ _ _ _ _ (apply_runs a r) E) as (l' & Hl & -> & _).
  rewrite txns_with_txns.
  destruct (apply_l_shape _ _ _ _ Hu Hl) as (t & Hut & Hadded & ->).
  split.
  - intros k Hk (x & [Hlive _]%list_elem_of_filter & Hx)%elem_of_keys.
    unfold live in Hlive. rewrite Forall_forall in Hlive.
    exact (Hlive k Hk Hx).
  - intros p Hp Hnot. rewrite Forall_forall in Hadded.
    destruct (purge_key_cases (removed r) _ _ (Hadded p Hp)) as [?|?];
      [assumption|contradiction].
Qed.

Lemma steps_absent_update qs l :
  Forall (fun p => TxnData.transaction_id p ∉ keys l) qs ->
  steps update_l qs l = Some l.
Proof.
  induction 1 as [|q qs Hq _ IH]; [reflexivity|]. cbn [steps].
  assert (update_l q l = Some l) as ->
    by (unfold update_l; rewrite (proj2 (find_none_keys _ _) Hq); reflexivity).
  exact IH.
Qed.

Lemma steps_absent_remove K l :
  Forall (fun k => k ∉ keys l) K -> steps remove_l K l = Some l.
Proof.
  induction 1 as [|k K Hk _ IH]; [reflexivity|]. cbn [steps].
  assert (remove_l k l = Some l) as ->
    by (unfold remove_l; rewrite (proj2 (find_none_keys _ _) Hk); reflexivity).
  exact IH.
Qed.

(** X14: A page that adds nothing and only modifies and removes ids that are
    not stored changes nothing and raises nothing, whatever its dates look
    like; the counts it reports are the sizes of its lists all the same. *)
Theorem unknown_ids_change_nothing a r w :
  added r = [] ->
  Forall (fun p => TxnData.transaction_id p ∉ keys (txns w)) (modified r) ->
  Forall (fun k => k ∉ keys (txns w)) (removed r) ->
  apply_sync_result a r w =
    (Ok (mkSyncCounts 0 (Z.of_nat (length (modified r)))
           (Z.of_nat (length (removed r)))), w).
Proof.
  intros Ha Hm Hr.
  assert (apply_l a r (txns w) = Some (txns w)) as Hl.
  { unfold apply_l. rewrite Ha. cbn [steps]. cbn.
    rewrite (steps_absent_update _ _ Hm). cbn.
    exact (steps_absent_remove _ _ Hr). }
  rewrite (runs_total _ _ _ _ _ (apply_runs a r) Hl), with_txns_id.
  unfold counts_of. rewrite Ha. reflexivity.
Qed.

(** X15: An added transaction whose id is already stored is an update in place:
    no row is created, and the stored row keeps its account, household,
    authorised date, user category, notes and manual flag. *)
Theorem redelivery_updates_in_place a p w w' t :
  _save_transaction a p w = (Ok tt, w') ->
  stored p w = Some t ->
  length (txns w') = length (txns w) /\
  exists t', stored p w' = Some t' /\
    account_id t' = account_id t /\
    household_id t' = household_id t /\
    authorized_date t' = authorized_date t /\
    category_id t' = category_id t /\
    notes t' = notes t /\
    is_manual t' = is_manual t.
Proof.
  intros E Hst.
  destruct (runs_ok _ _ _ _ _ _ (save_runs a p) E) as (l' & Hl & -> & _).
  unfold stored in *. rewrite txns_with_txns. unfold save_l, update_l in Hl.
  destruct (list_find _ (txns w)) as [[i t0]|] eqn:Hfind; [|discriminate].
  cbn in Hst. injection Hst as ->.
  destruct (strptime_ymd _) as [d|]; [|discriminate].
  cbn in Hl. injection Hl as <-.
  split; [apply length_alter|].
  rewrite (find_after_alter _ _ _ _ _ (upd_keeps_id p d) Hfind).
  exists (upd p d t). repeat split; reflexivity.
Qed.

(** X16: A run that returns has changed one account row only, and of that row
    the cursor, the time of the last sync and the error text: its id, its
    stored token and its active flag are as before. *)
Theorem run_changes_one_account now account_id w counts w' :
  sync_account_transactions now account_id w = (Ok counts, w') ->
  exists i a a',
    find_account account_id (session w) = Some (i, a) /\
    bank_accounts (persisted w') !! i = Some a' /\
    (forall j, j <> i ->
       bank_accounts (persisted w') !! j = bank_accounts (session w) !! j) /\
    length (bank_accounts (persisted w')) = length (bank_accounts (session w)) /\
    BankAccount.last_synced_at a' = Some now /\
    BankAccount.sync_error a' = None /\
    BankAccount.id a' = BankAccount.id a /\
    BankAccount.plaid_access_token a' = BankAccount.plaid_access_token a /\
    BankAccount.is_active a' = BankAccount.is_active a.
Proof.
  intros E.
  destruct (sync_ok_stages _ _ _ _ _ E)
    as (i & a & token & v & resp & l' & Hfind & _ & _ & _ & _ & ->).
  exists i, a, (mark_synced (SyncResponse.next_cursor resp) now a).
  split; [exact Hfind|]. cbn.
  split; [|split; [|split; [apply length_alter|repeat split; reflexivity]]].
  - rewrite list_lookup_alter_eq.
    apply find_account_lookup in Hfind as [-> _]. reflexivity.
  - intros j Hj. apply list_lookup_alter_ne. congruence.
Qed.


End SyncMore.
End SyncMore.

(** * Properties of the tasks that queue runs *)
Module DispatchMore.
Section DispatchMore.
Context {L : FernetLib} {D : DateLib} {P : PlaidApi} {TQ : TaskQueue}.
Import Sync SyncSpec SyncSpecMore SyncFacts.

(** Loading rows decrypts tokens and does nothing else. *)
Lemma load_rows_frame rows w r w' :
  load_rows rows w = (r, w') ->
  persisted w' = persisted w /\ session w' = session w /\
  plaid_calls w' = plaid_calls w.
Proof.
  revert w r w'.
  induction rows as [|[i a] rows IH]; intros w r w'; cbn [load_rows].
  - intros [= _ <-]. repeat split; reflexivity.
  - destruct (Vault.decrypt _ (vault w)) as [[t|e] v];
      [|intros [= _ <-]; repeat split; reflexivity].
    unfold bind, ret.
    destruct (load_rows rows _) as [[rest|e] w1] eqn:E;
      intros [= _ <-]; exact (IH _ _ _ E).
Qed.

Lemma query_accounts_frame keep w r w' :
  query_accounts keep w = (r, w') ->
  persisted w' = persisted w /\ session w' = session w /\
  plaid_calls w' = plaid_calls w.
Proof. unfold query_accounts, bind, get_session. apply load_rows_frame. Qed.

Lemma query_accounts_rows keep w loaded w' :
  query_accounts keep w = (Ok loaded, w') ->
  loaded = filter (fun ia => keep ia.2 = true)
             (imap pair (bank_accounts (session w))).
Proof. unfold query_accounts, bind, get_session. apply load_rows_ok. Qed.

Lemma fmap_filter_imap {A B} (keep : A -> bool) (f : A -> B)
  (g : nat -> A -> nat * A) (l : list A) :
  (forall i x, (g i x).2 = x) ->
  (fun ia => f ia.2) <$> filter (fun ia => keep ia.2 = true) (imap g l)
    = f <$> filter (fun a => keep a = true) l.
Proof.
  revert g. induction l as [|x l IH]; intros g Hg; [reflexivity|].
  rewrite imap_cons, !filter_cons, Hg.
  specialize (IH (g ∘ S) (fun i y => Hg (S i) y)).
  case_decide; cbn; rewrite ?Hg, IH; reflexivity.
Qed.

(** What the loop of the daily task leaves: the ids queued, in order, are
    among the ids it was given; each id is counted once, as queued or as
    failed; an id that is not queued was refused by [delay]; and if [delay]
    refuses nothing, every id is queued. *)
Lemma queue_each_spec accounts :
  forall queued s f q' s' f',
    queue_each accounts queued s f = (q', s', f') ->
    exists added,
      q' = queued ++ added /\
      added `sublist_of` ((fun ia => BankAccount.id ia.2) <$> accounts) /\
      s' = s + Z.of_nat (length added) /\
      s' + f' = s + f + Z.of_nat (length accounts) /\
      (forall id, id ∈ (fun ia => BankAccount.id ia.2) <$> accounts ->
         id ∉ added -> exists before e, delay before id = Raise e) /\
      ((forall before id, is_ok (delay before id) = true) ->
       added = (fun ia => BankAccount.id ia.2) <$> accounts).
Proof.
  induction accounts as [|ia accounts IH]; intros queued s f q' s' f';
    cbn [queue_each].
  - intros [= <- <- <-]. exists []. rewrite app_nil_r. cbn.
    repeat split; try lia; try reflexivity.
    intros id []%elem_of_nil.
  - destruct (delay queued (BankAccount.id ia.2)) as [u|e] eqn:Hd.
    + intros (added & -> & Hsub & -> & Hsum & Hrefused & Hall)%IH.
      exists (BankAccount.id ia.2 :: added).
      rewrite <- app_assoc. cbn [app fmap list_fmap length].
      split; [reflexivity|]. split; [apply sublist_skip; exact Hsub|].
      split; [lia|]. split; [lia|]. split.
      * intros id [->|Hid]%elem_of_cons Hnot.
        { exfalso. apply Hnot. left. }
        apply (Hrefused id Hid). intros Hin. apply Hnot. right. exact Hin.
      * intros Hok. rewrite (Hall Hok). reflexivity.
    + intros (added & -> & Hsub & -> & Hsum & Hrefused & Hall)%IH.
      exists added. cbn [fmap list_fmap length].
      split; [reflexivity|]. split; [apply sublist_cons; exact Hsub|].
      split; [reflexivity|]. split; [lia|]. split.
      * intros id [->|Hid]%elem_of_cons Hnot; [eauto|].
        exact (Hrefused id Hid Hnot).
      * intros Hok. specialize (Hok queued (BankAccount.id ia.2)).
        rewrite Hd in Hok. discriminate Hok.
Qed.

(** X17: The daily task commits nothing.  If loading the active accounts
    raises, it queues nothing and returns the error.  Otherwise it tries
    every active account, in table order, and goes on when [delay] raises:
    the ids it has queued are active ids in table order, their number is the
    count it returns as queued, that count and the failed count add up to
    the number of active accounts, an active id that is not queued was
    refused by [delay], and if [delay] refuses nothing every active id is
    queued. *)
Theorem daily_sync_queues_what_the_broker_takes w :
  persisted (sync_all_accounts w).2 = persisted w /\
  (forall e w1,
     query_accounts BankAccount.is_active (SessionLocal w) = (Raise e, w1) ->
     (sync_all_accounts w).1 = ([], DailyFailed (str_exn e))) /\
  (forall loaded w1,
     query_accounts BankAccount.is_active (SessionLocal w) = (Ok loaded, w1) ->
     exists queued s f,
       (sync_all_accounts w).1 = (queued, DailyCompleted s f) /\
       queued `sublist_of`
         (BankAccount.id <$> filter (fun a => BankAccount.is_active a = true)
                               (bank_accounts (persisted w))) /\
       s = Z.of_nat (length queued) /\
       s + f = Z.of_nat (length (filter (fun a => BankAccount.is_active a = true)
                                   (bank_accounts (persisted w)))) /\
       (forall id,
          id ∈ BankAccount.id <$> filter (fun a => BankAccount.is_active a = true)
                                    (bank_accounts (persisted w)) ->
          id ∉ queued -> exists before e, delay before id = Raise e) /\
       ((forall before id, is_ok (delay before id) = true) ->
        queued = BankAccount.id <$> filter (fun a => BankAccount.is_active a = true)
                                      (bank_accounts (persisted w)))).
Proof.
  unfold sync_all_accounts. cbn zeta.
  destruct (query_accounts _ _) as [[loaded|e] w1] eqn:E.
  - destruct (query_accounts_frame _ _ _ _ E) as (Hp & _ & _).
    pose proof (query_accounts_rows _ _ _ _ E) as Hrows.
    cbn [SessionLocal session] in Hrows.
    assert ((fun ia : nat * BankAccount.t => BankAccount.id ia.2) <$> loaded
            = BankAccount.id <$> filter (fun a => BankAccount.is_active a = true)
                                   (bank_accounts (persisted w))) as Hids.
    { rewrite Hrows.
      apply (fmap_filter_imap BankAccount.is_active BankAccount.id pair).
      reflexivity. }
    destruct (queue_each loaded [] 0 0) as [[queued s] f] eqn:Hq.
    destruct (queue_each_spec _ _ _ _ _ _ _ Hq)
      as (added & -> & Hsub & -> & Hsum & Hrefused & Hall).
    cbn [fst snd app] in *. rewrite Hids in Hsub, Hrefused, Hall.
    split; [exact Hp|]. split; [intros ? ? [=]|].
    intros loaded' w1' [= <- <-]. exists added, (0 + Z.of_nat (length added)), f.
    split; [reflexivity|]. split; [exact Hsub|]. split; [lia|].
    split; [|split; [exact Hrefused|exact Hall]].
    rewrite Hsum. rewrite <- (length_fmap BankAccount.id), <- Hids, length_fmap.
    lia.
  - destruct (query_accounts_frame _ _ _ _ E) as (Hp & _ & _).
    split; [exact Hp|]. split; [|intros ? ? [=]].
    intros e' w1' [= <- <-]. reflexivity.
Qed.

Lemma foldr_alter_marked (keep : BankAccount.t -> bool)
  (g : BankAccount.t -> BankAccount.t) (l : list BankAccount.t) :
  forall (h : nat -> nat) (pre : list BankAccount.t),
    (forall i, h i = (length pre + i)%nat) ->
    foldr (fun (ia : nat * BankAccount.t) acc => alter g ia.1 acc) (pre ++ l)
      (filter (fun ia => keep ia.2 = true) (imap (fun i x => (h i, x)) l))
    = pre ++ ((fun a => if keep a then g a else a) <$> l).
Proof.
  induction l as [|x l IH]; intros h pre Hh; [reflexivity|].
  rewrite imap_cons, filter_cons, fmap_cons. cbn [snd].
  assert (forall i, (h ∘ S) i = (length (pre ++ [x]) + i)%nat) as Hh'.
  { intros i. cbn. rewrite Hh, length_app. cbn. lia. }
  specialize (IH (h ∘ S) (pre ++ [x]) Hh').
  rewrite <- app_assoc in IH. cbn [app] in IH.
  case_decide as Hk.
  - rewrite Hk. cbn [foldr fst].
    change (imap ((fun i x0 => (h i, x0)) ∘ S) l)
      with (imap (fun i x0 => ((h ∘ S) i, x0)) l).
    rewrite IH, Hh, <- app_assoc. cbn [app]. rewrite alter_app_r. reflexivity.
  - destruct (keep x); [congruence|].
    change (imap ((fun i x0 => (h i, x0)) ∘ S) l)
      with (imap (fun i x0 => ((h ∘ S) i, x0)) l).
    rewrite IH, <- app_assoc. reflexivity.
Qed.

(** X19: An item-error event, when the item's accounts can be loaded, marks
    every account of the item inactive with the re-authentication message,
    leaves every other account and every transaction as it was, and queues
    nothing. *)
Theorem item_error_marks_accounts item_id w loaded w1 :
  query_accounts (fun a => bool_decide (BankAccount.plaid_item_id a = item_id))
    (SessionLocal w) = (Ok loaded, w1) ->
  (handle_plaid_webhook "ITEM" "ERROR" item_id w).1 = [] /\
  bank_accounts (persisted (handle_plaid_webhook "ITEM" "ERROR" item_id w).2)
    = mark_if_item item_id <$> bank_accounts (persisted w) /\
  transactions (persisted (handle_plaid_webhook "ITEM" "ERROR" item_id w).2)
    = transactions (persisted w).
Proof.
  intros E.
  destruct (query_accounts_frame _ _ _ _ E) as (_ & Hs & _).
  pose proof (query_accounts_rows _ _ _ _ E) as Hrows.
  assert (handle_plaid_webhook "ITEM" "ERROR" item_id w =
            ([], close (snd (commit
               (mkWorld (persisted w1)
                  (mkDatabase
                     (foldr (fun (ia : nat * BankAccount.t) acc =>
                               alter mark_item_error ia.1 acc)
                        (bank_accounts (session w1)) loaded)
                     (transactions (session w1)))
                  (vault w1) (plaid_calls w1)))))) as ->.
  { unfold handle_plaid_webhook. cbn zeta.
    rewrite (bool_decide_eq_false_2 ("ITEM" = "TRANSACTIONS")) by discriminate.
    rewrite (bool_decide_eq_true_2 ("ITEM" = "ITEM")) by reflexivity.
    rewrite (bool_decide_eq_true_2 ("ERROR" = "ERROR")) by reflexivity.
    cbv beta iota delta [bind get_session set_bank_accounts put_session].
    rewrite E. reflexivity. }
  cbn [fst snd commit close rollback persisted session bank_accounts transactions].
  rewrite Hs. cbn [SessionLocal session].
  split; [reflexivity|]. split; [|reflexivity].
  rewrite Hrows. cbn [SessionLocal session].
  exact (foldr_alter_marked
           (fun a => bool_decide (BankAccount.plaid_item_id a = item_id))
           mark_item_error (bank_accounts (persisted w)) (fun i => i) []
           (fun i => eq_refl)).
Qed.

(** X20: Only the item-error event changes the database, and only a
    transactions event with one of the three update codes queues runs. *)
Theorem other_events_change_nothing webhook_type webhook_code item_id w :
  ~ (webhook_type = "ITEM" /\ webhook_code = "ERROR") ->
  persisted (handle_plaid_webhook webhook_type webhook_code item_id w).2
    = persisted w /\
  ((handle_plaid_webhook webhook_type webhook_code item_id w).1 = [] \/
   (webhook_type = "TRANSACTIONS" /\
    webhook_code ∈ ["DEFAULT_UPDATE"; "HISTORICAL_UPDATE"; "INITIAL_UPDATE"])).
Proof.
  intros Hnot. unfold handle_plaid_webhook. cbn zeta.
  case_bool_decide as Ht.
  - case_bool_decide as Hc.
    + destruct (query_accounts _ _) as [[loaded|e] w1] eqn:E; cbn [fst snd];
        destruct (query_accounts_frame _ _ _ _ E) as (Hp & _ & _);
        (split; [exact Hp | right; split; assumption]).
    + split; [reflexivity | left; reflexivity].
  - case_bool_decide as Hi.
    + case_bool_decide as He; [exfalso; apply Hnot; split; assumption|].
      split; [reflexivity | left; reflexivity].
    + split; [reflexivity | left; reflexivity].
Qed.

End DispatchMore.
End DispatchMore.

(** * Properties of the token migration *)
Module MigrationMore.
Section MigrationMore.
Context {L : FernetLib} {D : DateLib}.
Import Sync Vault Migration.

Lemma get_fernet_warm st f : _fernet st = Some f -> _get_fernet st = (Ok f, st).
Proof. unfold _get_fernet. intros ->. reflexivity. Qed.

Lemma get_fernet_warms st f st' :
  _get_fernet st = (Ok f, st') -> _fernet st' = Some f.
Proof.
  unfold _get_fernet. destruct (_fernet st) as [f0|] eqn:Hc.
  - intros [= <- <-]. exact Hc.
  - destruct (Fernet _); [|discriminate]. intros [= <- <-]. reflexivity.
Qed.

Lemma decrypt_warm st f c : _fernet st = Some f -> (decrypt c st).2 = st.
Proof.
  intros Hf. unfold decrypt. destruct (negb (str_truthy c)); [reflexivity|].
  rewrite (get_fernet_warm _ _ Hf).
  destruct (fernet_decrypt f c) as [p|[]]; reflexivity.
Qed.

Lemma decrypt_warm_ok st f c p :
  _fernet st = Some f -> str_truthy c = true -> fernet_decrypt f c = Ok p ->
  decrypt c st = (Ok p, st).
Proof.
  intros Hf Hc Hd. unfold decrypt. rewrite Hc. cbn [negb].
  rewrite (get_fernet_warm _ _ Hf), Hd. reflexivity.
Qed.

Lemma decrypt_warm_raise st f c e0 :
  _fernet st = Some f -> str_truthy c = true -> fernet_decrypt f c = Raise e0 ->
  exists e, decrypt c st = (Raise e, st).
Proof.
  intros Hf Hc Hd. unfold decrypt. rewrite Hc. cbn [negb].
  rewrite (get_fernet_warm _ _ Hf), Hd. destruct e0; eauto.
Qed.

Lemma decrypt_empty st : decrypt "" st = (Ok "", st).
Proof. reflexivity. Qed.

Lemma encrypt_warm st f iv p :
  _fernet st = Some f ->
  encrypt iv p st = (Ok (if str_truthy p then fernet_encrypt f iv p else p), st).
Proof.
  intros Hf. unfold encrypt. destruct (str_truthy p); cbn [negb]; [|reflexivity].
  rewrite (get_fernet_warm _ _ Hf). reflexivity.
Qed.

Lemma is_encrypted_warm st f t : _fernet st = Some f -> (is_encrypted t st).2 = st.
Proof.
  intros Hf. unfold is_encrypted. destruct (negb (str_truthy t)); [reflexivity|].
  destruct (_ && _); [reflexivity|].
  pose proof (decrypt_warm st f t Hf) as Hd.
  destruct (decrypt t st) as [[p|e] st']; exact Hd.
Qed.

Lemma load_tokens_warm rows st f :
  _fernet st = Some f -> (load_tokens rows st).2 = st.
Proof.
  intros Hf. induction rows as [|a rows IH]; [reflexivity|]. cbn [load_tokens].
  pose proof (decrypt_warm st f (BankAccount.plaid_access_token a) Hf) as Hd.
  destruct (decrypt _ st) as [[p|e] st']; cbn in Hd; subst st'; [|reflexivity].
  destruct (load_tokens rows st) as [[rest|e] st']; exact IH.
Qed.

Lemma load_tokens_spec rows st f accounts st' :
  _fernet st = Some f ->
  load_tokens rows st = (Ok accounts, st') ->
  st' = st /\ accounts.*1 = rows /\
  Forall (fun ap => decrypt (BankAccount.plaid_access_token ap.1) st = (Ok ap.2, st))
    accounts.
Proof.
  intros Hf. revert accounts.
  induction rows as [|a rows IH]; intros accounts.
  - cbn [load_tokens]. intros [= <- <-]. repeat split. constructor.
  - cbn [load_tokens].
    pose proof (decrypt_warm st f (BankAccount.plaid_access_token a) Hf) as Hd.
    destruct (decrypt _ st) as [[p|e] st1] eqn:E; cbn in Hd; subst st1;
      [|discriminate].
    destruct (load_tokens rows st) as [[rest|e] st1] eqn:E'; [|discriminate].
    intros [= <- <-]. destruct (IH rest eq_refl) as (-> & Hrows & Hall).
    split; [reflexivity|]. split; [cbn; f_equal; exact Hrows|].
    constructor; [exact E|exact Hall].
Qed.

Lemma load_tokens_zip rows ps st f :
  _fernet st = Some f ->
  Forall2 (fun r p => decrypt (BankAccount.plaid_access_token r) st = (Ok p, st))
    rows ps ->
  load_tokens rows st = (Ok (zip rows ps), st).
Proof.
  intros Hf. induction 1 as [|r p rows ps Hr _ IH]; [reflexivity|].
  cbn [load_tokens zip zip_with]. rewrite Hr, IH. reflexivity.
Qed.

(** X21: A stored token that the library does not decrypt, a plaintext token
    among them, makes loading the accounts raise; the exception leaves the
    script, dry run or not, and the table stays as it was. *)
Theorem unreadable_token_aborts_migration dry_run iv w f v a e0 :
  _get_fernet (vault w) = (Ok f, v) ->
  a ∈ bank_accounts (persisted w) ->
  str_truthy (BankAccount.plaid_access_token a) = true ->
  fernet_decrypt f (BankAccount.plaid_access_token a) = Raise e0 ->
  exists e,
    (encrypt_existing_tokens dry_run iv w).1 = Raise e /\
    persisted (encrypt_existing_tokens dry_run iv w).2 = persisted w.
Proof.
  intros Hkey Hin Hne Hbad. unfold encrypt_existing_tokens. rewrite Hkey.
  apply get_fernet_warms in Hkey.
  assert (exists e, (load_tokens (bank_accounts (persisted w)) v).1 = Raise e)
    as [e He].
  { induction Hin as [a rows|a b rows _ IH]; cbn [load_tokens].
    - destruct (decrypt_warm_raise v f _ e0 Hkey Hne Hbad) as [e ->]. eauto.
    - pose proof (decrypt_warm v f (BankAccount.plaid_access_token b) Hkey) as Hd.
      destruct (decrypt _ v) as [[p|e] st1]; cbn in Hd; subst st1; [|eauto].
      destruct (IH Hne Hbad) as [e He].
      destruct (load_tokens rows v) as [[rest|e'] st1];
        [cbn in He; discriminate He|eauto]. }
  destruct (load_tokens _ v) as [[accounts|e'] v']; [cbn in He; discriminate He|].
  exists e'. split; reflexivity.
Qed.

Lemma migrate_summary st f iv accounts :
  _fernet st = Some f ->
  forall n rows rows' s,
    (migrate true iv n accounts rows st s).2
    = (migrate false iv n accounts rows' st s).2.
Proof.
  intros Hf. induction accounts as [|[a p] accounts IH]; intros n rows rows' s;
    [reflexivity|].
  cbn [migrate].
  pose proof (is_encrypted_warm st f p Hf) as Hst.
  destruct (is_encrypted p st) as [[] st1]; cbn in Hst; subst st1.
  - apply IH.
  - rewrite (encrypt_warm st f (iv n) p Hf). apply IH.
Qed.

(** X22: The dry run changes nothing and announces what the run itself will
    report: both end the same way, with the same summary. *)
Theorem dry_run_reports_the_run iv w :
  (encrypt_existing_tokens true iv w).1 = (encrypt_existing_tokens false iv w).1 /\
  persisted (encrypt_existing_tokens true iv w).2 = persisted w.
Proof.
  unfold encrypt_existing_tokens.
  destruct (_get_fernet (vault w)) as [[f|e] v] eqn:Hkey; [|split; reflexivity].
  apply get_fernet_warms in Hkey.
  destruct (load_tokens _ v) as [[accounts|e] v'] eqn:Hload; [|split; reflexivity].
  destruct (load_tokens_spec _ _ _ _ _ Hkey Hload) as (-> & _ & _).
  pose proof (migrate_summary v f iv accounts Hkey 0%nat
                (bank_accounts (persisted w)) (bank_accounts (persisted w))
                (mkSummary 0 0 0)) as Hs.
  destruct (migrate true _ _ _ _ _ _) as [[rows1 v1] s1].
  destruct (migrate false _ _ _ _ _ _) as [[rows2 v2] s2].
  cbn in Hs. subst s2. split; reflexivity.
Qed.

Lemma update_token_keeps st (rows0 rows : list BankAccount.t) n a c :
  NoDup (BankAccount.id <$> rows0) ->
  rows0 !! n = Some a ->
  decrypt c st = decrypt (BankAccount.plaid_access_token a) st ->
  Forall2 (fun r a' => exists t, r = set_token t a' /\
             decrypt t st = decrypt (BankAccount.plaid_access_token a') st)
    rows rows0 ->
  Forall2 (fun r a' => exists t, r = set_token t a' /\
             decrypt t st = decrypt (BankAccount.plaid_access_token a') st)
    (update_token c (BankAccount.id a) rows) rows0.
Proof.
  intros Hnd Hn Hc Hinv.
  apply Forall2_same_length_lookup in Hinv as [Hlen Hinv].
  apply Forall2_same_length_lookup. unfold update_token.
  split; [rewrite length_fmap; exact Hlen|].
  intros j r' a' Hj Ha'. rewrite list_lookup_fmap in Hj.
  destruct (rows !! j) as [r|] eqn:Hr; [|discriminate].
  cbn in Hj. injection Hj as <-.
  destruct (Hinv j r a' Hr Ha') as (t & -> & Ht).
  case_bool_decide as Hid.
  - cbn in Hid.
    assert (j = n) as ->.
    { apply (NoDup_lookup _ _ _ (BankAccount.id a') Hnd).
      - rewrite list_lookup_fmap, Ha'. reflexivity.
      - rewrite list_lookup_fmap, Hn. cbn. f_equal. symmetry. exact Hid. }
    assert (a' = a) as -> by congruence.
    exists c. split; [reflexivity|exact Hc].
  - exists t. split; [reflexivity|exact Ht].
Qed.

Lemma migrate_keeps st f iv (rows0 : list BankAccount.t) :
  _fernet st = Some f ->
  NoDup (BankAccount.id <$> rows0) ->
  (forall n a p, rows0 !! n = Some a ->
     decrypt (BankAccount.plaid_access_token a) st = (Ok p, st) ->
     str_truthy p = true ->
     fernet_decrypt f (fernet_encrypt f (iv n) p) = Ok p /\
     str_truthy (fernet_encrypt f (iv n) p) = true) ->
  forall accounts n rows s,
    (forall k a p, accounts !! k = Some (a, p) ->
       rows0 !! (n + k)%nat = Some a /\
       decrypt (BankAccount.plaid_access_token a) st = (Ok p, st)) ->
    Forall2 (fun r a' => exists t, r = set_token t a' /\
               decrypt t st = decrypt (BankAccount.plaid_access_token a') st)
      rows rows0 ->
    Forall2 (fun r a' => exists t, r = set_token t a' /\
               decrypt t st = decrypt (BankAccount.plaid_access_token a') st)
      (migrate false iv n accounts rows st s).1.1 rows0.
Proof.
  intros Hf Hnd Hlaw.
  induction accounts as [|[a p] accounts IH]; intros n rows s Hacc Hinv;
    [exact Hinv|].
  cbn [migrate].
  assert (forall k a0 p0, accounts !! k = Some (a0, p0) ->
            rows0 !! (S n + k)%nat = Some a0 /\
            decrypt (BankAccount.plaid_access_token a0) st = (Ok p0, st)) as Hacc'.
  { intros k a0 p0 Hk. replace (S n + k)%nat with (n + S k)%nat by lia.
    apply Hacc. exact Hk. }
  destruct (Hacc 0%nat a p eq_refl) as [Hn Hp].
  replace (n + 0)%nat with n in Hn by lia.
  pose proof (is_encrypted_warm st f p Hf) as Hst.
  destruct (is_encrypted p st) as [[] st1]; cbn in Hst; subst st1.
  - apply IH; assumption.
  - rewrite (encrypt_warm st f (iv n) p Hf). apply IH; [exact Hacc'|].
    apply (update_token_keeps st rows0 rows n a); [exact Hnd|exact Hn| |exact Hinv].
    rewrite Hp. destruct (str_truthy p) eqn:Htp.
    + destruct (Hlaw n a p Hn Hp Htp) as [Hdec Hne].
      exact (decrypt_warm_ok st f _ p Hf Hne Hdec).
    + destruct p; [reflexivity|discriminate].
Qed.

(** X23: On a table whose tokens all decrypt and whose ids are distinct, the
    run rewrites tokens only: every row keeps its other columns, every
    token still decrypts to the plaintext it decrypted to before, and no
    transaction is touched, provided the library decrypts the tokens it
    issues. *)
Theorem migration_keeps_every_secret iv w f v s w' :
  _get_fernet (vault w) = (Ok f, v) ->
  NoDup (BankAccount.id <$> bank_accounts (persisted w)) ->
  (forall n a p, bank_accounts (persisted w) !! n = Some a ->
     decrypt (BankAccount.plaid_access_token a) v = (Ok p, v) ->
     str_truthy p = true ->
     fernet_decrypt f (fernet_encrypt f (iv n) p) = Ok p /\
     str_truthy (fernet_encrypt f (iv n) p) = true) ->
  encrypt_existing_tokens false iv w = (Ok (Some s), w') ->
  exists before after,
    load_tokens (bank_accounts (persisted w)) v = (Ok before, v) /\
    load_tokens (bank_accounts (persisted w')) v = (Ok after, v) /\
    after.*2 = before.*2 /\
    Forall2 (fun r a => exists t, r = set_token t a)
      (bank_accounts (persisted w')) (bank_accounts (persisted w)) /\
    transactions (persisted w') = transactions (persisted w).
Proof.
  intros Hkey Hnd Hlaw. unfold encrypt_existing_tokens. rewrite Hkey.
  apply get_fernet_warms in Hkey.
  destruct (load_tokens _ v) as [[accounts|e] v'] eqn:Hload; [|discriminate].
  destruct (load_tokens_spec _ _ _ _ _ Hkey Hload) as (-> & Hrows & Hall).
  pose proof (migrate_keeps v f iv (bank_accounts (persisted w)) Hkey Hnd Hlaw
                accounts 0%nat (bank_accounts (persisted w)) (mkSummary 0 0 0))
    as Hkeep.
  destruct (migrate false _ _ _ _ _ _) as [[rows' v''] s'].
  intros [= <- <-]. cbn [persisted bank_accounts transactions] in *.
  cbn [fst] in Hkeep.
  assert (Forall2 (fun r a' => exists t, r = set_token t a' /\
             decrypt t v = decrypt (BankAccount.plaid_access_token a') v)
            rows' (bank_accounts (persisted w))) as Hinv.
  { apply Hkeep.
    - intros k a p Hk. cbn. split.
      + rewrite <- Hrows, list_lookup_fmap, Hk. reflexivity.
      + rewrite Forall_lookup in Hall. exact (Hall k (a, p) Hk).
    - apply Forall2_same_length_lookup. split; [reflexivity|].
      intros j r a' Hr Ha'. assert (r = a') as -> by congruence.
      exists (BankAccount.plaid_access_token a'). split; [|reflexivity].
      destruct a'; reflexivity. }
  exists accounts, (zip rows' accounts.*2).
  assert (length rows' = length accounts) as Hlen.
  { apply Forall2_length in Hinv. rewrite Hinv, <- Hrows, length_fmap.
    reflexivity. }
  split; [reflexivity|]. split; [|split; [|split; [|reflexivity]]].
  - apply (load_tokens_zip _ _ _ f Hkey).
    apply Forall2_same_length_lookup.
    split; [rewrite length_fmap; exact Hlen|].
    intros j r p Hr Hp. rewrite list_lookup_fmap in Hp.
    destruct (accounts !! j) as [[a p']|] eqn:Ha; [|discriminate].
    cbn in Hp. injection Hp as <-.
    apply Forall2_same_length_lookup in Hinv as [_ Hinv].
    destruct (Hinv j r a Hr) as (t & -> & Ht).
    { rewrite <- Hrows, list_lookup_fmap, Ha. reflexivity. }
    cbn. rewrite Ht. rewrite Forall_lookup in Hall. exact (Hall j (a, p') Ha).
  - apply snd_zip. rewrite length_fmap. lia.
  - eapply Forall2_impl; [exact Hinv|]. intros r a (t & -> & _). eauto.
Qed.

End MigrationMore.
End MigrationMore.

(** * Properties of unlinking an account *)
Module UnlinkMore.
Section UnlinkMore.
Context {L : FernetLib} {D : DateLib} {I : PlaidItemApi}.
Import Sync Unlink.

Lemma remove_stages id w :
  remove_account id w =
  match find_account id (session w) with
  | None => (Raise (ValueError ("Account " +:+ id +:+ " not found")), w)
  | Some (i, a) =>
      match Vault.decrypt (BankAccount.plaid_access_token a) (vault w) with
      | (Raise e, v) =>
          (Raise e, mkWorld (persisted w) (session w) v (plaid_calls w))
      | (Ok token, v) =>
          match item_remove token with
          | Raise e =>
              (Raise e, mkWorld (persisted w) (session w) v (plaid_calls w))
          | Ok _ =>
              (Ok true,
               mkWorld (delete_account i a (session w))
                 (delete_account i a (session w)) v (plaid_calls w))
          end
      end
  end.
Proof.
  unfold remove_account, query_account, bind at 1.
  destruct (find_account id (session w)) as [[i a]|]; [|reflexivity].
  destruct (Vault.decrypt _ (vault w)) as [[token|e] v]; [|reflexivity].
  unfold bind at 1, remove_item.
  destruct (item_remove token) as [[]|e]; reflexivity.
Qed.

(** X24: An unlink that returns has had the aggregator accept the removal for
    the account's decrypted token, and has committed the deletion of the
    account's row and of exactly the transactions that reference the
    account. *)
Theorem unlink_removes_account_and_its_transactions id w b w' :
  remove_account id w = (Ok b, w') ->
  b = true /\
  (exists i a token,
     find_account id (session w) = Some (i, a) /\
     (Vault.decrypt (BankAccount.plaid_access_token a) (vault w)).1 = Ok token /\
     item_remove token = Ok tt /\
     bank_accounts (persisted w') = delete i (bank_accounts (session w))) /\
  (forall t, t ∈ transactions (persisted w') <->
             t ∈ transactions (session w) /\ account_id t <> id).
Proof.
  rewrite remove_stages.
  destruct (find_account id (session w)) as [[i a]|] eqn:Hfind; [|discriminate].
  destruct (Vault.decrypt _ (vault w)) as [[token|e] v] eqn:Hdec; [|discriminate].
  destruct (item_remove token) as [[]|e] eqn:Hrm; [|discriminate].
  intros [= <- <-]. split; [reflexivity|]. split.
  - exists i, a, token. split; [reflexivity|].
    split; [rewrite Hdec; reflexivity|]. split; [exact Hrm|reflexivity].
  - intros t. cbn [persisted delete_account transactions].
    rewrite list_elem_of_filter.
    unfold find_account in Hfind.
    apply list_find_Some in Hfind as (_ & -> & _). tauto.
Qed.

(** X25: An unlink that raises, whether the account is unknown, its token does
    not decrypt or the aggregator refuses, has deleted nothing. *)
Theorem failed_unlink_changes_nothing id w e w' :
  remove_account id w = (Raise e, w') ->
  persisted w' = persisted w /\ session w' = session w.
Proof.
  rewrite remove_stages.
  destruct (find_account id (session w)) as [[i a]|];
    [|intros [= _ <-]; split; reflexivity].
  destruct (Vault.decrypt _ (vault w)) as [[token|e'] v];
    [|intros [= _ <-]; split; reflexivity].
  destruct (item_remove token) as [[]|e']; [discriminate|].
  intros [= _ <-]. split; reflexivity.
Qed.

End UnlinkMore.
End UnlinkMore.

(** * Properties of the manual sync endpoint *)
Module ApiMore.
Section ApiMore.
Context {L : FernetLib} {D : DateLib} {P : PlaidApi}.
Import Sync SyncSpec SyncFacts Api.

Lemma query_owned_frame id user w r w' :
  query_owned_account id user w = (r, w') ->
  persisted w' = persisted w /\ session w' = session w /\
  plaid_calls w' = plaid_calls w /\
  forall i a, r = Ok (Some (i, a)) ->
    bank_accounts (session w) !! i = Some a /\
    BankAccount.id a = id /\ BankAccount.user_id a = user.
Proof.
  unfold query_owned_account.
  destruct (list_find _ _) as [[i a]|] eqn:Hfind.
  - apply list_find_Some in Hfind as (Hi & [Hid Hu] & _).
    destruct (Vault.decrypt _ (vault w)) as [[token|e] v]; intros [= <- <-];
      (split; [reflexivity|]; split; [reflexivity|]; split; [reflexivity|]).
    + intros i' a' [= <- <-]. auto.
    + intros i' a' [=].
  - intros [= <- <-].
    split; [reflexivity|]; split; [reflexivity|]; split; [reflexivity|].
    intros i' a' [=].
Qed.

(** X26: A caller who does not own an account with this id, whether or not
    another user's account has it, is answered 404; no token is
    decrypted, no request is made and nothing is written. *)
Theorem foreign_account_is_not_found now id user w :
  (forall a, a ∈ bank_accounts (session w) ->
     BankAccount.id a = id -> BankAccount.user_id a <> user) ->
  sync_account now id user w =
    (Raise (HTTPException 404 "Account not found"), w).
Proof.
  intros Hforeign. unfold sync_account, query_owned_account.
  destruct (list_find _ _) as [[i a]|] eqn:Hfind; [|reflexivity].
  apply list_find_Some in Hfind as (Hi & [Hid Hu] & _).
  destruct (Hforeign a (list_elem_of_lookup_2 _ _ _ Hi) Hid Hu).
Qed.

Lemma same_position (rows : list BankAccount.t) i j a b :
  NoDup (BankAccount.id <$> rows) ->
  rows !! i = Some a -> rows !! j = Some b ->
  BankAccount.id a = BankAccount.id b -> i = j.
Proof.
  intros Hnd Hi Hj Hid.
  apply (NoDup_lookup _ _ _ (BankAccount.id a) Hnd).
  - rewrite list_lookup_fmap, Hi. reflexivity.
  - rewrite list_lookup_fmap, Hj. cbn. f_equal. symmetry. exact Hid.
Qed.

Lemma respond_after_run now id user w i a w1 :
  NoDup (BankAccount.id <$> bank_accounts (session w)) ->
  query_owned_account id user w = (Ok (Some (i, a)), w1) ->
  forall counts w2,
    sync_account_transactions now id w1 = (Ok counts, w2) ->
    sync_and_respond now id i w1 =
      (Ok (mkPlaidAccountSyncResponse (added_count counts)
             (modified_count counts) (removed_count counts) now), w2).
Proof.
  intros Hnd Hq counts w2 Hrun.
  destruct (query_owned_frame _ _ _ _ _ Hq) as (Hp & Hs & _ & Hrow).
  destruct (Hrow i a eq_refl) as (Hi & Hid & _).
  unfold sync_and_respond, bind at 1. rewrite Hrun.
  unfold bind, get_session.
  destruct (sync_ok_stages _ _ _ _ _ Hrun)
    as (j & a' & token & v & resp & l' & Hfind & _ & _ & _ & _ & ->).
  apply find_account_lookup in Hfind as [Hj Hid'].
  rewrite Hs in Hj.
  assert (i = j) as <-.
  { apply (same_position _ _ _ a a' Hnd Hi Hj). congruence. }
  assert (a' = a) as -> by congruence.
  cbn [after_commit session bank_accounts with_txns after_call after_load].
  rewrite Hs, list_lookup_alter_eq, Hi. reflexivity.
Qed.

(** X27: With distinct account ids, a request that ends in an error, of
    whatever kind, has committed nothing. *)
Theorem failed_manual_sync_commits_nothing now id user w e w' :
  NoDup (BankAccount.id <$> bank_accounts (session w)) ->
  sync_account now id user w = (Raise e, w') ->
  persisted w' = persisted w.
Proof.
  intros Hnd. unfold sync_account.
  destruct (query_owned_account id user w) as [[[[i a]|]|e1] w1] eqn:Hq;
    destruct (query_owned_frame _ _ _ _ _ Hq) as (Hp & _ & _ & _);
    try (intros [= _ <-]; exact Hp).
  destruct (sync_account_transactions now id w1) as [[counts|e2] w2] eqn:Hrun.
  - rewrite (respond_after_run now id user w i a w1 Hnd Hq counts w2 Hrun).
    discriminate.
  - unfold sync_and_respond, bind at 1. rewrite Hrun.
    apply sync_raise_persisted in Hrun. intros [= _ <-].
    rewrite Hrun. exact Hp.
Qed.

(** X28: With distinct account ids, a request that is answered was made by the
    account's owner; the answer carries the counts of one run and the time
    of that run, and the run is committed. *)
Theorem answered_manual_sync_ran_for_owner now id user w response w' :
  NoDup (BankAccount.id <$> bank_accounts (session w)) ->
  sync_account now id user w = (Ok response, w') ->
  (exists a, a ∈ bank_accounts (session w) /\
     BankAccount.id a = id /\ BankAccount.user_id a = user) /\
  last_synced_at response = now /\
  exists w1 counts,
    persisted w1 = persisted w /\ session w1 = session w /\
    sync_account_transactions now id w1 = (Ok counts, w') /\
    transactions_added response = added_count counts /\
    transactions_modified response = modified_count counts /\
    transactions_removed response = removed_count counts.
Proof.
  intros Hnd. unfold sync_account.
  destruct (query_owned_account id user w)
    as [[[[i a]|]|e1] w1] eqn:Hq; try discriminate.
  destruct (query_owned_frame _ _ _ _ _ Hq) as (Hp & Hs & _ & Hrow).
  destruct (Hrow i a eq_refl) as (Hi & Hid & Hu).
  destruct (sync_account_transactions now id w1) as [[counts|e2] w2] eqn:Hrun.
  - rewrite (respond_after_run now id user w i a w1 Hnd Hq counts w2 Hrun).
    intros [= <- <-]. split; [|split; [reflexivity|]].
    + exists a. split; [|split; assumption].
      exact (list_elem_of_lookup_2 _ _ _ Hi).
    + exists w1, counts. repeat split; first [assumption | reflexivity].
  - unfold sync_and_respond, bind at 1. rewrite Hrun. discriminate.
Qed.

End ApiMore.
End ApiMore.

(** * The further properties on the sample data *)
Module MoreExamples.
Import Fixtures MoreFixtures.
#[local] Existing Instances fernet_double hash_double jose_double date_double
  plaid_double item_double queue_double.

(** ** Webhooks *)


Lemma verifier_error_sample :
  (exists detail,
     HTTPException 500 "Webhook verification error"
     = HTTPException Webhook.HTTP_401_UNAUTHORIZED detail) \/
  HTTPException 500 "Webhook verification error"
  = HTTPException Webhook.HTTP_500_INTERNAL_SERVER_ERROR "Webhook verification error".
Proof.
  apply (WebhookMore.verifier_raises_only_http_errors
           (signed_by "token.iat-1000") webhook_body 2000).
  vm_compute. reflexivity.
Defined.

(** ** The vault and the encrypted column *)

Lemma encrypt_then_decrypt_sample :
  exists c st1,
    Vault.encrypt "iv-1" access_token (Vault.mkState good_key None) = (Ok c, st1) /\
    Vault.decrypt c st1 = (Ok access_token, st1).
Proof.
  apply (@VaultMore.encrypt_then_decrypt fernet_double good_key
           (b64_urlsafe good_key));
    reflexivity.
Defined.

Lemma decrypt_returns_only_decrypted_sample :
  (stored_token = "" /\ access_token = "") \/
  exists f, Vault._fernet warm_vault = Some f /\
            fernet_decrypt f stored_token = Ok access_token.
Proof.
  apply (VaultMore.decrypt_returns_only_decrypted stored_token
           (Vault.mkState good_key None) access_token warm_vault).
  reflexivity.
Defined.

Lemma column_round_trip_sample :
  exists stored st1,
    Columns.process_bind_param "iv-1" (Some access_token)
      (Vault.mkState good_key None) = (Ok stored, st1) /\
    Columns.process_result_value stored st1 = (Ok (Some access_token), st1).
Proof.
  apply (@VaultMore.column_round_trip fernet_double good_key
           (b64_urlsafe good_key)).
  - reflexivity.
  - intros v [= <-]. split; reflexivity.
Defined.

(** ** Reconciliation and runs *)

Lemma manual_rows_sample :
  SyncSpecMore.manual_rows
    (SyncSpec.txns
       (Sync.apply_sync_result (account stored_token true) sample_page
          world_with_manual_row).2)
  = SyncSpecMore.manual_rows (SyncSpec.txns world_with_manual_row).
Proof.
  apply (SyncMore.manual_rows_untouched (account stored_token true) sample_page
           world_with_manual_row (Sync.mkSyncCounts 2 1 1)).
  reflexivity.
Defined.

Lemma unique_ids_sample :
  SyncSpec.unique_ids
    (SyncSpec.txns
       (Sync.apply_sync_result (account stored_token true) sample_page
          world_with_manual_row).2).
Proof.
  apply (SyncMore.unique_ids_preserved (account stored_token true) sample_page
           world_with_manual_row (Sync.mkSyncCounts 2 1 1)).
  - apply NoDup_singleton.
  - reflexivity.
Defined.

Lemma removed_and_added_sample :
  (forall k, k ∈ Sync.removed sample_page ->
     k ∉ SyncSpec.keys
           (SyncSpec.txns
              (Sync.apply_sync_result (account stored_token true) sample_page
                 world_with_manual_row).2)) /\
  (forall p, p ∈ Sync.added sample_page ->
     TxnData.transaction_id p ∉ Sync.removed sample_page ->
     TxnData.transaction_id p ∈
       SyncSpec.keys
         (SyncSpec.txns
            (Sync.apply_sync_result (account stored_token true) sample_page
               world_with_manual_row).2)).
Proof.
  apply (SyncMore.removed_gone_added_stored (account stored_token true)
           sample_page world_with_manual_row (Sync.mkSyncCounts 2 1 1)).
  - apply NoDup_singleton.
  - reflexivity.
Defined.

Lemma unknown_ids_sample :
  Sync.apply_sync_result (account stored_token true)
    (Sync.mkSyncResult [] [txn "t7" 5] ["t8"] false None) world_with_manual_row
  = (Ok (Sync.mkSyncCounts 0 1 1), world_with_manual_row).
Proof.
  apply (SyncMore.unknown_ids_change_nothing (account stored_token true)
           (Sync.mkSyncResult [] [txn "t7" 5] ["t8"] false None)
           world_with_manual_row).
  - reflexivity.
  - repeat constructor. intros Hin%list_elem_of_singleton. discriminate Hin.
  - repeat constructor. intros Hin%list_elem_of_singleton. discriminate Hin.
Defined.

Lemma redelivery_sample :
  length (SyncSpec.txns
            (Sync._save_transaction (account stored_token true) (txn "t0" 77)
               world_with_manual_row).2)
  = length (SyncSpec.txns world_with_manual_row) /\
  exists t',
    SyncSpec.stored (txn "t0" 77)
      (Sync._save_transaction (account stored_token true) (txn "t0" 77)
         world_with_manual_row).2 = Some t' /\
    Sync.account_id t' = Sync.account_id synced_row /\
    Sync.household_id t' = Sync.household_id synced_row /\
    Sync.authorized_date t' = Sync.authorized_date synced_row /\
    Sync.category_id t' = Sync.category_id synced_row /\
    Sync.notes t' = Sync.notes synced_row /\
    Sync.is_manual t' = Sync.is_manual synced_row.
Proof.
  apply (SyncMore.redelivery_updates_in_place (account stored_token true)
           (txn "t0" 77) world_with_manual_row);
    reflexivity.
Defined.

Lemma run_changes_one_account_sample :
  exists i a a',
    Sync.find_account "acct-1" (Sync.session world_two_accounts) = Some (i, a) /\
    Sync.bank_accounts
      (Sync.persisted
         (Sync.sync_account_transactions 1000 "acct-1" world_two_accounts).2) !! i
    = Some a' /\
    (forall j, j <> i ->
       Sync.bank_accounts
         (Sync.persisted
            (Sync.sync_account_transactions 1000 "acct-1" world_two_accounts).2) !! j
       = Sync.bank_accounts (Sync.session world_two_accounts) !! j) /\
    length (Sync.bank_accounts
              (Sync.persisted
                 (Sync.sync_account_transactions 1000 "acct-1"
                    world_two_accounts).2))
    = length (Sync.bank_accounts (Sync.session world_two_accounts)) /\
    BankAccount.last_synced_at a' = Some 1000 /\
    BankAccount.sync_error a' = None /\
    BankAccount.id a' = BankAccount.id a /\
    BankAccount.plaid_access_token a' = BankAccount.plaid_access_token a /\
    BankAccount.is_active a' = BankAccount.is_active a.
Proof.
  apply (SyncMore.run_changes_one_account 1000 "acct-1" world_two_accounts
           (Sync.mkSyncCounts 0 0 1)).
  reflexivity.
Defined.


(** ** The tasks *)

(** Two active accounts and a broker that refuses the second: the first is
    queued, the second counted as failed. *)
Lemma daily_sync_partial_sample :
  (Sync.sync_all_accounts world_two_accounts).1
    = (["acct-1"], Sync.DailyCompleted 1 1) /\
  BankAccount.id <$>
    filter (fun a => BankAccount.is_active a = true)
      (Sync.bank_accounts (Sync.persisted world_two_accounts))
    = ["acct-1"; "acct-2"].
Proof. split; vm_compute; reflexivity. Qed.

Lemma webhook_queues_sample :
  exists a, a ∈ Sync.bank_accounts (Sync.persisted world_two_accounts) /\
            BankAccount.id a = "acct-1" /\
            BankAccount.plaid_item_id a = "item-1" /\
            BankAccount.is_active a = true.
Proof.
  apply (SyncFacts.webhook_queues_active_only "TRANSACTIONS" "DEFAULT_UPDATE"
           "item-1" world_two_accounts "acct-1").
  assert ((Sync.handle_plaid_webhook "TRANSACTIONS" "DEFAULT_UPDATE" "item-1"
             world_two_accounts).1 = ["acct-1"]) as ->
    by (reflexivity).
  constructor.
Defined.

Lemma item_error_sample :
  (Sync.handle_plaid_webhook "ITEM" "ERROR" "item-1" world_two_accounts).1 = [] /\
  Sync.bank_accounts
    (Sync.persisted
       (Sync.handle_plaid_webhook "ITEM" "ERROR" "item-1" world_two_accounts).2)
  = SyncSpecMore.mark_if_item "item-1"
      <$> Sync.bank_accounts (Sync.persisted world_two_accounts) /\
  Sync.transactions
    (Sync.persisted
       (Sync.handle_plaid_webhook "ITEM" "ERROR" "item-1" world_two_accounts).2)
  = Sync.transactions (Sync.persisted world_two_accounts).
Proof.
  apply (DispatchMore.item_error_marks_accounts "item-1" world_two_accounts
           [(0%nat, account stored_token true)]
           (Sync.query_accounts
              (fun a => bool_decide (BankAccount.plaid_item_id a = "item-1"))
              (Sync.SessionLocal world_two_accounts)).2).
  reflexivity.
Defined.

Lemma other_events_sample :
  Sync.persisted
    (Sync.handle_plaid_webhook "ITEM" "PENDING_EXPIRATION" "item-1"
       world_two_accounts).2
  = Sync.persisted world_two_accounts /\
  ((Sync.handle_plaid_webhook "ITEM" "PENDING_EXPIRATION" "item-1"
      world_two_accounts).1 = [] \/
   ("ITEM" = "TRANSACTIONS" /\
    "PENDING_EXPIRATION" ∈ ["DEFAULT_UPDATE"; "HISTORICAL_UPDATE"; "INITIAL_UPDATE"])).
Proof.
  apply (DispatchMore.other_events_change_nothing "ITEM" "PENDING_EXPIRATION"
           "item-1" world_two_accounts).
  intros [_ Hcode]. discriminate Hcode.
Defined.

(** ** The token migration *)

Lemma plaintext_token_sample :
  exists e,
    (Migration.encrypt_existing_tokens false (fun _ => "iv-9") world_plaintext).1
    = Raise e /\
    Sync.persisted
      (Migration.encrypt_existing_tokens false (fun _ => "iv-9") world_plaintext).2
    = Sync.persisted world_plaintext.
Proof.
  apply (@MigrationMore.unreadable_token_aborts_migration fernet_double date_double
           false (fun _ => "iv-9") world_plaintext (b64_urlsafe good_key)
           warm_vault (account access_token true) InvalidToken).
  - reflexivity.
  - constructor.
  - reflexivity.
  - reflexivity.
Defined.

Lemma migration_keeps_sample :
  exists before after,
    Migration.load_tokens
      (Sync.bank_accounts (Sync.persisted world_two_accounts)) warm_vault
    = (Ok before, warm_vault) /\
    Migration.load_tokens
      (Sync.bank_accounts
         (Sync.persisted
            (Migration.encrypt_existing_tokens false (fun _ => "iv-9")
               world_two_accounts).2)) warm_vault
    = (Ok after, warm_vault) /\
    after.*2 = before.*2 /\
    Forall2 (fun r a => exists t, r = Migration.set_token t a)
      (Sync.bank_accounts
         (Sync.persisted
            (Migration.encrypt_existing_tokens false (fun _ => "iv-9")
               world_two_accounts).2))
      (Sync.bank_accounts (Sync.persisted world_two_accounts)) /\
    Sync.transactions
      (Sync.persisted
         (Migration.encrypt_existing_tokens false (fun _ => "iv-9")
            world_two_accounts).2)
    = Sync.transactions (Sync.persisted world_two_accounts).
Proof.
  apply (@MigrationMore.migration_keeps_every_secret fernet_double date_double
           (fun _ => "iv-9") world_two_accounts (b64_urlsafe good_key)
           warm_vault (Migration.mkSummary 2 0 0)).
  - reflexivity.
  - change (NoDup ["acct-1"; "acct-2"]).
    apply NoDup_cons. split; [|apply NoDup_singleton].
    intros Hin%list_elem_of_singleton. discriminate Hin.
  - intros n a p Hn Hd Hp.
    destruct n as [|[|n]]; [| |discriminate Hn]; injection Hn as <-.
    + assert (p = access_token) as ->
        by exact (f_equal (fun r => match r.1 with Ok q => q | Raise _ => p end)
                    (eq_sym Hd)).
      split; reflexivity.
    + assert (p = "access-other") as ->
        by exact (f_equal (fun r => match r.1 with Ok q => q | Raise _ => p end)
                    (eq_sym Hd)).
      split; reflexivity.
  - reflexivity.
Defined.

(** ** Unlinking *)

Lemma unlink_sample :
  true = true /\
  (exists i a token,
     Sync.find_account "acct-1" (Sync.session world_two_accounts) = Some (i, a) /\
     (Vault.decrypt (BankAccount.plaid_access_token a)
        (Sync.vault world_two_accounts)).1 = Ok token /\
     item_remove token = Ok tt /\
     Sync.bank_accounts
       (Sync.persisted (Unlink.remove_account "acct-1" world_two_accounts).2)
     = delete i (Sync.bank_accounts (Sync.session world_two_accounts))) /\
  (forall t,
     t ∈ Sync.transactions
           (Sync.persisted (Unlink.remove_account "acct-1" world_two_accounts).2)
     <-> t ∈ Sync.transactions (Sync.session world_two_accounts) /\
         Sync.account_id t <> "acct-1").
Proof.
  apply (UnlinkMore.unlink_removes_account_and_its_transactions "acct-1"
           world_two_accounts true).
  reflexivity.
Defined.

Lemma refused_unlink_sample :
  Sync.persisted (Unlink.remove_account "acct-2" world_two_accounts).2
  = Sync.persisted world_two_accounts /\
  Sync.session (Unlink.remove_account "acct-2" world_two_accounts).2
  = Sync.session world_two_accounts.
Proof.
  apply (UnlinkMore.failed_unlink_changes_nothing "acct-2" world_two_accounts
           (ApiException "INVALID_ACCESS_TOKEN")).
  reflexivity.
Defined.

(** ** The manual sync endpoint *)

Lemma foreign_account_sample :
  Api.sync_account 1000 "acct-2" "user-1" world_two_accounts
  = (Raise (HTTPException 404 "Account not found"), world_two_accounts).
Proof.
  apply (ApiMore.foreign_account_is_not_found 1000 "acct-2" "user-1"
           world_two_accounts).
  intros a Ha Hid Hu.
  apply elem_of_cons in Ha as [->|Ha]; [discriminate Hid|].
  apply list_elem_of_singleton in Ha as ->. discriminate Hu.
Defined.

Lemma failed_manual_sync_sample :
  Sync.persisted (Api.sync_account 1000 "acct-1" "user-1" world_bad_cursor).2
  = Sync.persisted world_bad_cursor.
Proof.
  apply (ApiMore.failed_manual_sync_commits_nothing 1000 "acct-1" "user-1"
           world_bad_cursor
           (HTTPException 400 "Failed to sync transactions: INVALID_FIELD")).
  - apply NoDup_singleton.
  - reflexivity.
Defined.

Lemma answered_manual_sync_sample :
  (exists a, a ∈ Sync.bank_accounts (Sync.session world_two_accounts) /\
     BankAccount.id a = "acct-1" /\ BankAccount.user_id a = "user-1") /\
  Api.last_synced_at (Api.mkPlaidAccountSyncResponse 0 0 1 1000) = 1000 /\
  exists w1 counts,
    Sync.persisted w1 = Sync.persisted world_two_accounts /\
    Sync.session w1 = Sync.session world_two_accounts /\
    Sync.sync_account_transactions 1000 "acct-1" w1
    = (Ok counts,
       (Api.sync_account 1000 "acct-1" "user-1" world_two_accounts).2) /\
    Api.transactions_added (Api.mkPlaidAccountSyncResponse 0 0 1 1000)
    = Sync.added_count counts /\
    Api.transactions_modified (Api.mkPlaidAccountSyncResponse 0 0 1 1000)
    = Sync.modified_count counts /\
    Api.transactions_removed (Api.mkPlaidAccountSyncResponse 0 0 1 1000)
    = Sync.removed_count counts.
Proof.
  apply (ApiMore.answered_manual_sync_ran_for_owner 1000 "acct-1" "user-1"
           world_two_accounts (Api.mkPlaidAccountSyncResponse 0 0 1 1000)).
  - change (NoDup ["acct-1"; "acct-2"]).
    apply NoDup_cons. split; [|apply NoDup_singleton].
    intros Hin%list_elem_of_singleton. discriminate Hin.
  - reflexivity.
Defined.

End MoreExamples.
